(** * Statsd sinks of Envoy: a shallow embedding of
      source/common/stats/statsd.{h,cc} and the properties of its
      UDP writer and of its buffered, backpressure-aware TCP sink. *)

From Stdlib Require Import ZArith NArith List Ascii String Bool Lia.
Import ListNotations.
Local Open Scope Z_scope.

(** ** Bytes and fixed-width integers *)

(** A [std::string] (and any region of raw memory) is a sequence of chars. *)
Definition bytes : Type := list ascii.

Definition str (s : string) : bytes := list_ascii_of_string s.

(** [name.size()], [message.size()]: a [size_t]. *)
Definition size (s : bytes) : Z := Z.of_nat (List.length s).

Definition NUL : ascii := "000"%char.
Definition LF : ascii := "010"%char.

(** Arithmetic on [uint64_t] wraps around modulo 2^64. *)
Definition wrap64 (z : Z) : Z := z mod 2 ^ 64.

(** Conversion of a [uint64_t] to the signed 64-bit representation of
    [std::chrono::milliseconds]. *)
Definition to_int64 (z : Z) : Z :=
  let u := wrap64 z in if u <? 2 ^ 63 then u else u - 2 ^ 64.

(** ** Decimal rendering *)

Definition digit (d : Z) : ascii := ascii_of_nat (48 + Z.to_nat d).

(** One round of the do-while loop that peels off the last decimal digit;
    [fuel] bounds the number of further rounds. *)
Fixpoint itoa_loop (fuel : nat) (i : Z) (acc : bytes) : bytes :=
  let acc' := digit (i mod 10) :: acc in
  match fuel with
  | O => acc'
  | S fuel' => if 0 <? i / 10 then itoa_loop fuel' (i / 10) acc' else acc'
  end.

(** The decimal digits of an unsigned 64-bit value: at most 20 of them. *)
Definition decimal (i : Z) : bytes := itoa_loop 19 i [].

(** [fmt::format("{}", v)] at an unsigned integer type. *)
Definition fmt_unsigned (v : Z) : bytes := decimal v.

(** [fmt::format("{}", v)] at a signed integer type, such as the
    [ms.count()] of a [std::chrono::milliseconds]. *)
Definition fmt_signed (v : Z) : bytes :=
  if v <? 0 then "-"%char :: decimal (- v) else decimal v.

(** [std::chrono::milliseconds(value)] for a [uint64_t value]: the count is
    the value converted to the signed representation. *)
Definition milliseconds (value : Z) : Z := to_int64 value.

(** ** The UDP writer and sink *)

(** A datagram handed to [::send]: the socket and the payload. *)
Record Datagram : Type := { dgram_fd : Z; dgram_payload : bytes }.

Module Writer.

Record t : Type := { fd_ : Z }.

(** [::send(fd_, message.c_str(), message.size(), MSG_DONTWAIT)]: one
    datagram, whose result is ignored. *)
Definition send (w : t) (message : bytes) : list Datagram :=
  [ {| dgram_fd := fd_ w; dgram_payload := message |} ].

Definition writeCounter (w : t) (name : bytes) (increment : Z) : list Datagram :=
  let message := str "envoy." ++ name ++ str ":" ++ fmt_unsigned increment ++ str "|c" in
  send w message.

Definition writeGauge (w : t) (name : bytes) (value : Z) : list Datagram :=
  let message := str "envoy." ++ name ++ str ":" ++ fmt_unsigned value ++ str "|g" in
  send w message.

Definition writeTimer (w : t) (name : bytes) (ms : Z) : list Datagram :=
  let message := str "envoy." ++ name ++ str ":" ++ fmt_signed ms ++ str "|ms" in
  send w message.

End Writer.

Module UdpStatsdSink.

(** The sink reaches its writer through the thread-local slot. *)
Record t : Type := { tls_ : Writer.t }.

Definition beginFlush (s : t) : list Datagram := [].

Definition flushCounter (s : t) (name : bytes) (delta : Z) : list Datagram :=
  Writer.writeCounter (tls_ s) name delta.

Definition flushGauge (s : t) (name : bytes) (value : Z) : list Datagram :=
  Writer.writeGauge (tls_ s) name value.

Definition endFlush (s : t) : list Datagram := [].

Definition onTimespanComplete (s : t) (name : bytes) (ms : Z) : list Datagram :=
  Writer.writeTimer (tls_ s) name ms.

Definition onHistogramComplete (s : t) (name : bytes) (value : Z) : list Datagram :=
  onTimespanComplete s name (milliseconds value).

End UdpStatsdSink.

(** ** Collaborators of the TCP sink *)

(** A client connection handed out by the cluster manager, known by its
    identity. *)
Definition Connection : Type := nat.

Inductive ConnectionCloseType : Type := FlushWrite | NoFlush.

(** The calls the sink makes on its collaborators, in the order it makes
    them. *)
Inductive Event : Type :=
| TcpConnForCluster
| AddConnectionCallbacks (c : Connection)
| SetBufferStats (c : Connection)
| Connect (c : Connection)
| ConnWrite (c : Connection) (data : bytes)
| Close (c : Connection) (how : ConnectionCloseType)
| DeferredDelete (c : option Connection).

(** What the sink reads from the cluster at the time of a call: the shared
    gauge of bytes buffered for transmission, and the answer the cluster
    manager gives when asked for a connection ([None] is a null
    [info.connection_]). *)
Record Upstream : Type :=
  { upstream_cx_tx_bytes_buffered_ : Z;
    tcpConnForCluster : option Connection }.

(** Somewhat arbitrary 16MiB limit for buffered stats. *)
Definition MaxBufferedStatsBytes : Z := 1024 * 1024 * 16.

(** 16KiB intermediate buffer for flushing. *)
Definition FlushSliceSizeBytes : Z := 1024 * 16.

(** Prefix for all flushed stats: the char array ["envoy."], with its
    terminating NUL. *)
Definition StatPrefix : bytes := str "envoy." ++ [NUL].

Definition sizeof_StatPrefix : Z := size StatPrefix.

(** ** The flush buffer *)

Module Buffer.

(** A reserved region: the memory [mem_] points to and the length
    [len_] recorded for it. *)
Record RawSlice : Type := { mem_ : bytes; len_ : Z }.

(** The committed slices, oldest first. *)
Definition OwnedImpl : Type := list bytes.

Definition contents (b : OwnedImpl) : bytes := List.concat b.

Definition length (b : OwnedImpl) : Z := size (contents b).

(** Modelled from the spec: [Buffer::OwnedImpl::reserve] is declared in
    common/buffer/buffer_impl.h, outside these sources; it reserves one
    writable slice of the requested fixed size and reports the number of
    slices it filled in. *)
Definition reserve (b : OwnedImpl) (length : Z) : Z * RawSlice :=
  (1, {| mem_ := repeat NUL (Z.to_nat length); len_ := length |}).

(** Modelled from the spec: [Buffer::OwnedImpl::commit] appends the
    slice, trimmed to the [len_] bytes actually used. *)
Definition commit (b : OwnedImpl) (s : RawSlice) : OwnedImpl :=
  b ++ [firstn (Z.to_nat (len_ s)) (mem_ s)].

(** Modelled from the spec: [Buffer::OwnedImpl::drain] removes [n]
    bytes from the front. *)
Fixpoint drain_nat (b : OwnedImpl) (n : nat) : OwnedImpl :=
  match b with
  | [] => []
  | s :: rest =>
      if (List.length s <=? n)%nat then drain_nat rest (n - List.length s)
      else skipn n s :: rest
  end.

Definition drain (b : OwnedImpl) (n : Z) : OwnedImpl := drain_nat b (Z.to_nat n).

End Buffer.

(** ** Results and the monad of the per-thread sink *)

Inductive Error : Type :=
| AssertFailure   (* an ASSERT of a debug build does not hold *)
| MemoryFault.    (* a store outside the reserved slice, or through nullptr *)

Inductive Result (A : Type) : Type :=
| Ok (a : A)
| Err (e : Error).
Arguments Ok {A} a.
Arguments Err {A} e.

(** State of the [TcpStatsdSink] shared by the threads, as far as a thread
    writes it: the value of the counter [statsd.cx_overflow]. *)
Record TcpStatsdSinkState : Type := { cx_overflow_stat_ : N }.

(** State of [TcpStatsdSink::TlsSink].  [current_slice_mem_] is the
    offset of the write cursor from [current_buffer_slice_.mem_], and
    [None] when it is [nullptr]. *)
Record TlsSink : Type :=
  { parent_ : TcpStatsdSinkState;
    connection_ : option Connection;
    buffer_ : Buffer.OwnedImpl;
    current_buffer_slice_ : Buffer.RawSlice;
    current_slice_mem_ : option Z }.

Definition set_parent (p : TcpStatsdSinkState) (st : TlsSink) : TlsSink :=
  {| parent_ := p; connection_ := connection_ st; buffer_ := buffer_ st;
     current_buffer_slice_ := current_buffer_slice_ st;
     current_slice_mem_ := current_slice_mem_ st |}.

Definition set_connection (c : option Connection) (st : TlsSink) : TlsSink :=
  {| parent_ := parent_ st; connection_ := c; buffer_ := buffer_ st;
     current_buffer_slice_ := current_buffer_slice_ st;
     current_slice_mem_ := current_slice_mem_ st |}.

Definition set_buffer (b : Buffer.OwnedImpl) (st : TlsSink) : TlsSink :=
  {| parent_ := parent_ st; connection_ := connection_ st; buffer_ := b;
     current_buffer_slice_ := current_buffer_slice_ st;
     current_slice_mem_ := current_slice_mem_ st |}.

Definition set_current_buffer_slice (s : Buffer.RawSlice) (st : TlsSink) : TlsSink :=
  {| parent_ := parent_ st; connection_ := connection_ st; buffer_ := buffer_ st;
     current_buffer_slice_ := s;
     current_slice_mem_ := current_slice_mem_ st |}.

Definition set_current_slice_mem (p : option Z) (st : TlsSink) : TlsSink :=
  {| parent_ := parent_ st; connection_ := connection_ st; buffer_ := buffer_ st;
     current_buffer_slice_ := current_buffer_slice_ st;
     current_slice_mem_ := p |}.

(** A method of the sink reads the upstream, updates the sink and calls
    collaborators, or stops at an error. *)
Definition M (A : Type) : Type :=
  Upstream -> TlsSink -> Result (A * TlsSink * list Event).

Definition ret {A : Type} (a : A) : M A := fun _ st => Ok (a, st, []).

Definition bind {A B : Type} (m : M A) (f : A -> M B) : M B :=
  fun up st =>
    match m up st with
    | Ok (a, st1, out1) =>
        match f a up st1 with
        | Ok (b, st2, out2) => Ok (b, st2, out1 ++ out2)
        | Err e => Err e
        end
    | Err e => Err e
    end.

Declare Scope sink_scope.
Delimit Scope sink_scope with sink.
Notation "x <- m ;; k" := (bind m (fun x => k))
  (at level 100, m at next level, right associativity) : sink_scope.
Notation "m ;; k" := (bind m (fun _ => k))
  (at level 100, right associativity) : sink_scope.
Local Open Scope sink_scope.

Definition fail {A : Type} (e : Error) : M A := fun _ _ => Err e.
Definition ask : M Upstream := fun up st => Ok (up, st, []).
Definition gets {A : Type} (f : TlsSink -> A) : M A := fun _ st => Ok (f st, st, []).
Definition modify (f : TlsSink -> TlsSink) : M unit := fun _ st => Ok (tt, f st, []).
Definition emit (e : Event) : M unit := fun _ st => Ok (tt, st, [e]).

Definition is_nullptr (p : option Z) : bool :=
  match p with None => true | Some _ => false end.

(** ** Raw memory of the current slice *)

(** A store of [src] at offset [off] of a region: inside the region it
    replaces the bytes there, anywhere else it has no defined result. *)
Definition store (mem : bytes) (off : Z) (src : bytes) : option bytes :=
  if (0 <=? off) && (off + size src <=? size mem)
  then Some (firstn (Z.to_nat off) mem ++ src ++ skipn (Z.to_nat (off + size src)) mem)
  else None.

(** A store through a pointer into the current slice. *)
Definition store_at (dst : option Z) (src : bytes) : M unit :=
  match dst with
  | None => fail MemoryFault
  | Some off =>
      slice <- gets current_buffer_slice_ ;;
      match store (Buffer.mem_ slice) off src with
      | Some mem' =>
          modify (set_current_buffer_slice
                    {| Buffer.mem_ := mem'; Buffer.len_ := Buffer.len_ slice |})
      | None => fail MemoryFault
      end
  end.

(** [memcpy(dst, src, n)]. *)
Definition memcpy (dst : option Z) (src : bytes) (n : Z) : M unit :=
  store_at dst (firstn (Z.to_nat n) src).

(** [current_slice_mem_ += n]. *)
Definition advance (n : Z) : M unit :=
  p <- gets current_slice_mem_ ;;
  match p with
  | None => fail MemoryFault
  | Some off => modify (set_current_slice_mem (Some (off + n)))
  end.

(** [*current_slice_mem_++ = c]. *)
Definition put (c : ascii) : M unit :=
  p <- gets current_slice_mem_ ;;
  store_at p [c] ;;
  advance 1.

(** Modelled from the spec: [StringUtil::itoa(out, buffer_size, i)] is
    defined in common/common/utility.cc, outside these sources.  It is
    handed [buffer_size] writable bytes at [out], writes the unsigned decimal
    digits of [i] and a terminating NUL there, and returns the number of
    digits. *)
Definition itoa (out : option Z) (buffer_size : Z) (i : Z) : M Z :=
  match out with
  | None => fail MemoryFault
  | Some off =>
      slice <- gets current_buffer_slice_ ;;
      if (0 <=? off) && (off + buffer_size <=? size (Buffer.mem_ slice))
      then store_at out (decimal i ++ [NUL]) ;; ret (size (decimal i))
      else fail MemoryFault
  end.

(** ** TcpStatsdSink::TlsSink *)

(** Modelled from the spec: [Stats::Counter::inc] belongs to the stats
    store, outside these sources; [parent_.cx_overflow_stat_.inc()] adds one
    to the overflow counter. *)
Definition inc_cx_overflow_stat (st : TlsSink) : TlsSink :=
  set_parent {| cx_overflow_stat_ := N.succ (cx_overflow_stat_ (parent_ st)) |} st.

(** Modelled from the spec: [Network::Connection::write] belongs to the
    connection, outside these sources; the connection takes the whole content
    of the buffer into its own send buffer, which leaves the caller's buffer
    empty. *)
Definition Connection_write (c : Connection) (buffer : Buffer.OwnedImpl)
  : M Buffer.OwnedImpl :=
  emit (ConnWrite c (Buffer.contents buffer)) ;;
  ret [].

(** [connection_->write(buffer)]. *)
Definition connection_write (buffer : Buffer.OwnedImpl) : M Buffer.OwnedImpl :=
  c <- gets connection_ ;;
  match c with
  | Some conn => Connection_write conn buffer
  | None => fail MemoryFault
  end.

(** [write(Buffer::Instance& buffer)]: the buffer is passed by reference,
    so the method returns what is left in it.  A connection that is closed
    here reports it through [onEvent], like any other close. *)
Definition write (buffer : Buffer.OwnedImpl) : M Buffer.OwnedImpl :=
  up <- ask ;;
  if MaxBufferedStatsBytes <? upstream_cx_tx_bytes_buffered_ up then
    c <- gets connection_ ;;
    match c with
    | Some conn => emit (Close conn NoFlush)
    | None => ret tt
    end ;;
    modify inc_cx_overflow_stat ;;
    ret (Buffer.drain buffer (Buffer.length buffer))
  else
    c <- gets connection_ ;;
    match c with
    | None =>
        emit TcpConnForCluster ;;
        match tcpConnForCluster up with
        | None => ret buffer
        | Some conn =>
            modify (set_connection (Some conn)) ;;
            emit (AddConnectionCallbacks conn) ;;
            emit (SetBufferStats conn) ;;
            emit (Connect conn) ;;
            connection_write buffer
        end
    | Some _ => connection_write buffer
    end.

(** How the sink is built.  The [ASSERT] macro comes from
    common/common/assert.h, outside these sources: a debug build checks the
    condition and aborts when it does not hold, a release build compiles the
    check out. *)
Inductive Build : Type := Debug | Release.

Section Build.

Variable build : Build.

Definition ASSERT (c : bool) : M unit :=
  match build with
  | Release => ret tt
  | Debug => if c then ret tt else fail AssertFailure
  end.

Definition usedBuffer : M Z :=
  p <- gets current_slice_mem_ ;;
  ASSERT (negb (is_nullptr p)) ;;
  match p with
  | Some off => ret (wrap64 off)
  | None => fail MemoryFault
  end.

Definition beginFlush (expect_empty_buffer : bool) : M unit :=
  b <- gets buffer_ ;;
  ASSERT (negb expect_empty_buffer || (Buffer.length b =? 0)) ;;
  p <- gets current_slice_mem_ ;;
  ASSERT (is_nullptr p) ;;
  let '(num_iovecs, slice) := Buffer.reserve b FlushSliceSizeBytes in
  modify (set_current_buffer_slice slice) ;;
  ASSERT (num_iovecs =? 1) ;;
  ASSERT (FlushSliceSizeBytes <=? Buffer.len_ slice) ;;
  modify (set_current_slice_mem (Some 0)).

Definition endFlush (do_write : bool) : M unit :=
  p <- gets current_slice_mem_ ;;
  ASSERT (negb (is_nullptr p)) ;;
  used <- usedBuffer ;;
  slice <- gets current_buffer_slice_ ;;
  modify (set_current_buffer_slice
            {| Buffer.mem_ := Buffer.mem_ slice; Buffer.len_ := used |}) ;;
  slice' <- gets current_buffer_slice_ ;;
  b <- gets buffer_ ;;
  modify (set_buffer (Buffer.commit b slice')) ;;
  modify (set_current_slice_mem None) ;;
  if do_write then
    b <- gets buffer_ ;;
    b' <- write b ;;
    modify (set_buffer b')
  else ret tt.

Definition commonFlush (name : bytes) (value : Z) (stat_type : ascii) : M unit :=
  p <- gets current_slice_mem_ ;;
  ASSERT (negb (is_nullptr p)) ;;
  slice <- gets current_buffer_slice_ ;;
  used <- usedBuffer ;;
  (if wrap64 (Buffer.len_ slice - used) <? wrap64 (size name + 40)
   then endFlush false ;; beginFlush false
   else ret tt) ;;
  p <- gets current_slice_mem_ ;;
  memcpy p StatPrefix (sizeof_StatPrefix - 1) ;;
  advance (sizeof_StatPrefix - 1) ;;
  p <- gets current_slice_mem_ ;;
  memcpy p name (size name) ;;
  advance (size name) ;;
  put ":"%char ;;
  p <- gets current_slice_mem_ ;;
  n <- itoa p 30 value ;;
  advance n ;;
  put "|"%char ;;
  put stat_type ;;
  put LF.

Definition flushCounter (name : bytes) (delta : Z) : M unit :=
  commonFlush name delta "c"%char.

Definition flushGauge (name : bytes) (value : Z) : M unit :=
  commonFlush name value "g"%char.

End Build.

Section ConnectionEvents.

(** The bits of [Network::ConnectionEvent], declared with the connection
    interface. *)
Variables RemoteClose LocalClose : Z.

Definition onEvent (events : Z) : M unit :=
  if negb (Z.land events LocalClose =? 0) || negb (Z.land events RemoteClose =? 0)
  then
    c <- gets connection_ ;;
    modify (set_connection None) ;;
    emit (DeferredDelete c)
  else ret tt.

End ConnectionEvents.

Definition onTimespanComplete (name : bytes) (ms : Z) : M unit :=
  let buffer : Buffer.OwnedImpl :=
    [ str "envoy." ++ name ++ str ":" ++ fmt_signed ms ++ str "|ms" ++ [LF] ] in
  _ <- write buffer ;;
  ret tt.

(** ** TcpStatsdSink: the [Stats::Sink] interface over the thread's [TlsSink] *)

Module TcpStatsdSink.

Definition beginFlush (build : Build) : M unit := beginFlush build true.
Definition flushCounter (build : Build) (name : bytes) (delta : Z) : M unit :=
  flushCounter build name delta.
Definition flushGauge (build : Build) (name : bytes) (value : Z) : M unit :=
  flushGauge build name value.
Definition endFlush (build : Build) : M unit := endFlush build true.
Definition onTimespanComplete (name : bytes) (ms : Z) : M unit :=
  onTimespanComplete name ms.
Definition onHistogramComplete (name : bytes) (value : Z) : M unit :=
  onTimespanComplete name (milliseconds value).

End TcpStatsdSink.

(** ** Flush cycles *)

(** One call of a flush cycle. *)
Inductive Sample : Type :=
| Counter (name : bytes) (delta : Z)
| Gauge (name : bytes) (value : Z).

Definition sample_name (s : Sample) : bytes :=
  match s with Counter n _ => n | Gauge n _ => n end.

Definition sample_value (s : Sample) : Z :=
  match s with Counter _ v => v | Gauge _ v => v end.

Definition sample_type (s : Sample) : ascii :=
  match s with Counter _ _ => "c"%char | Gauge _ _ => "g"%char end.

Definition flushSample (build : Build) (s : Sample) : M unit :=
  match s with
  | Counter name delta => TcpStatsdSink.flushCounter build name delta
  | Gauge name value => TcpStatsdSink.flushGauge build name value
  end.

Fixpoint flushAll (build : Build) (samples : list Sample) : M unit :=
  match samples with
  | [] => ret tt
  | s :: rest => flushSample build s ;; flushAll build rest
  end.

(** What the stats flusher does once per interval. *)
Definition flushCycle (build : Build) (samples : list Sample) : M unit :=
  TcpStatsdSink.beginFlush build ;;
  flushAll build samples ;;
  TcpStatsdSink.endFlush build.

(** The wire line of one sample and of a batch. *)
Definition wire_line (name : bytes) (value : Z) (stat_type : ascii) : bytes :=
  str "envoy." ++ name ++ str ":" ++ decimal value ++ str "|" ++ [stat_type] ++ [LF].

Definition sample_line (s : Sample) : bytes :=
  wire_line (sample_name s) (sample_value s) (sample_type s).

Definition wire (samples : list Sample) : bytes :=
  List.concat (map sample_line samples).

(** The data handed to a connection's write, call by call. *)
Fixpoint conn_writes (evs : list Event) : list bytes :=
  match evs with
  | [] => []
  | ConnWrite _ data :: rest => data :: conn_writes rest
  | _ :: rest => conn_writes rest
  end.

(** A freshly constructed per-thread sink. *)
Definition TlsSink_init : TlsSink :=
  {| parent_ := {| cx_overflow_stat_ := 0%N |};
     connection_ := None;
     buffer_ := [];
     current_buffer_slice_ := {| Buffer.mem_ := []; Buffer.len_ := 0 |};
     current_slice_mem_ := None |}.

(** Names and upstream of the unit tests. *)
Definition test_counter : bytes := str "test_counter".
Definition test_gauge : bytes := str "test_gauge".

Definition up_ok (c : Connection) : Upstream :=
  {| upstream_cx_tx_bytes_buffered_ := 0; tcpConnForCluster := Some c |}.

(** ** Vocabulary of the statements *)

(** The value of a decimal digit. *)
Definition digit_value (c : ascii) : Z := Z.of_nat (nat_of_ascii c) - 48.

(** The number denoted by [start] followed by the digits [ds]. *)
Definition digits_value (ds : bytes) (start : Z) : Z :=
  fold_left (fun a c => 10 * a + digit_value c) ds start.

(** A region whose first bytes are [pre]. *)
Definition has_prefix (mem pre : bytes) : Prop :=
  firstn (List.length pre) mem = pre.

(** The sink has an open slice of [L] bytes in which [pre] has been
    written and the cursor stands just behind it; [p0], [c0] and [B] are
    the rest of the sink. *)
Definition open_slice (p0 : TcpStatsdSinkState) (c0 : option Connection)
    (B : Buffer.OwnedImpl) (L : Z) (pre : bytes) (st : TlsSink) : Prop :=
  parent_ st = p0 /\ connection_ st = c0 /\ buffer_ st = B /\
  current_slice_mem_ st = Some (size pre) /\
  Buffer.len_ (current_buffer_slice_ st) = L /\
  size (Buffer.mem_ (current_buffer_slice_ st)) = L /\
  has_prefix (Buffer.mem_ (current_buffer_slice_ st)) pre.

(** The sink as [beginFlush] leaves it. *)
Definition begun (st : TlsSink) : TlsSink :=
  set_current_slice_mem (Some 0)
    (set_current_buffer_slice (snd (Buffer.reserve (buffer_ st) FlushSliceSizeBytes)) st).

(** The sink once [endFlush] has committed the slice, the cursor standing
    at [off]. *)
Definition committed (off : Z) (st : TlsSink) : TlsSink :=
  let slice' := {| Buffer.mem_ := Buffer.mem_ (current_buffer_slice_ st);
                   Buffer.len_ := wrap64 off |} in
  set_current_slice_mem None
    (set_buffer (Buffer.commit (buffer_ st) slice')
       (set_current_buffer_slice slice' st)).

(** The name of the sample leaves the margin free in an empty slice. *)
Definition fits (s : Sample) : Prop :=
  size (sample_name s) + 40 <= FlushSliceSizeBytes.

(** A cycle is open and what has been flushed in it so far, committed or
    in the current slice, is [flushed]. *)
Definition cycle_open (p0 : TcpStatsdSinkState) (c0 : option Connection)
    (flushed : bytes) (st : TlsSink) : Prop :=
  exists B L pre,
    open_slice p0 c0 B L pre st /\ L < 2 ^ 64 /\ Buffer.contents B ++ pre = flushed.

(** The sink between two cycles: no slice is open. *)
Definition idle (st : TlsSink) : Prop := current_slice_mem_ st = None.

(** The test that opens [write]. *)
Definition over_ceiling (up : Upstream) : bool :=
  MaxBufferedStatsBytes <? upstream_cx_tx_bytes_buffered_ up.

(** The connection a write attempt reaches: none over the ceiling, else the
    one the sink holds, else the one the cluster manager hands out. *)
Definition taker (up : Upstream) (st : TlsSink) : option Connection :=
  if over_ceiling up then None
  else match connection_ st with
       | Some c => Some c
       | None => tcpConnForCluster up
       end.

(** What a write attempt hands to a connection. *)
Definition handed (up : Upstream) (st : TlsSink) (data : bytes) : list bytes :=
  match taker up st with Some _ => [data] | None => [] end.

(** The cursor of an open cycle stands inside its slice. *)
Definition within_slice (st : TlsSink) : Prop :=
  exists off,
    current_slice_mem_ st = Some off /\
    0 <= off <= Buffer.len_ (current_buffer_slice_ st) /\
    size (Buffer.mem_ (current_buffer_slice_ st)) = Buffer.len_ (current_buffer_slice_ st) /\
    Buffer.len_ (current_buffer_slice_ st) < 2 ^ 64.

(** The calls [write] makes, by the path it takes. *)
Definition write_events (up : Upstream) (st : TlsSink) (data : bytes) : list Event :=
  if over_ceiling up then
    match connection_ st with Some c => [Close c NoFlush] | None => [] end
  else
    match connection_ st with
    | Some c => [ConnWrite c data]
    | None =>
        TcpConnForCluster ::
        match tcpConnForCluster up with
        | Some c => [AddConnectionCallbacks c; SetBufferStats c; Connect c; ConnWrite c data]
        | None => []
        end
    end.

(** The sink as [write] leaves it. *)
Definition write_state (up : Upstream) (st : TlsSink) : TlsSink :=
  if over_ceiling up then inc_cx_overflow_stat st
  else match connection_ st with
       | Some _ => st
       | None => set_connection (tcpConnForCluster up) st
       end.

(** What [write] leaves in the buffer it was given. *)
Definition write_left (up : Upstream) (st : TlsSink) (buffer : Buffer.OwnedImpl)
  : Buffer.OwnedImpl :=
  if over_ceiling up then []
  else match taker up st with Some _ => [] | None => buffer end.

(** A name as long as a whole slice. *)
Definition long_name : bytes := repeat "a"%char (Z.to_nat FlushSliceSizeBytes).

(** The calls of a write attempt over the ceiling. *)
Definition close_events (st : TlsSink) : list Event :=
  match connection_ st with Some c => [Close c NoFlush] | None => [] end.

(** The value of the [statsd.cx_overflow] counter. *)
Definition overflows (st : TlsSink) : N := cx_overflow_stat_ (parent_ st).

(** Upstreams of the runs below: under the ceiling with no connection to
    hand out, 17 MiB buffered, 15 MiB buffered. *)
Definition up_unobtainable : Upstream :=
  {| upstream_cx_tx_bytes_buffered_ := 0; tcpConnForCluster := None |}.

Definition up_over : Upstream :=
  {| upstream_cx_tx_bytes_buffered_ := 1024 * 1024 * 17; tcpConnForCluster := Some 7%nat |}.

Definition up_under : Upstream :=
  {| upstream_cx_tx_bytes_buffered_ := 1024 * 1024 * 15; tcpConnForCluster := Some 7%nat |}.

(** The guard in the words of its description: buffered bytes above the
    ceiling. *)
Definition BackpressureGuard (buffered_bytes : Z) : bool :=
  buffered_bytes >? MaxBufferedStatsBytes.

(** A run of write attempts on one buffer, one upstream reading each. *)
Fixpoint write_attempts (buffer : Buffer.OwnedImpl) (ups : list Upstream) (st : TlsSink)
  : Result TlsSink :=
  match ups with
  | [] => Ok st
  | up :: rest =>
      match write buffer up st with
      | Ok (_, st', _) => write_attempts buffer rest st'
      | Err e => Err e
      end
  end.

(** The readings of a run that are above the ceiling. *)
Definition trips (ups : list Upstream) : nat :=
  List.length (filter (fun up => BackpressureGuard (upstream_cx_tx_bytes_buffered_ up)) ups).

(** The calls of the UDP sink that emit a metric. *)
Inductive UdpCall : Type :=
| UdpFlushCounter (name : bytes) (delta : Z)
| UdpFlushGauge (name : bytes) (value : Z)
| UdpTimespanComplete (name : bytes) (ms : Z).

Definition udp_call (s : UdpStatsdSink.t) (c : UdpCall) : list Datagram :=
  match c with
  | UdpFlushCounter name delta => UdpStatsdSink.flushCounter s name delta
  | UdpFlushGauge name value => UdpStatsdSink.flushGauge s name value
  | UdpTimespanComplete name ms => UdpStatsdSink.onTimespanComplete s name ms
  end.

(** The line of a timer on the TCP sink. *)
Definition timer_line (name : bytes) (ms : Z) : bytes :=
  str "envoy." ++ name ++ str ":" ++ fmt_signed ms ++ str "|ms" ++ [LF].

(** The newline-terminated line of a call. *)
Definition udp_call_line (c : UdpCall) : bytes :=
  match c with
  | UdpFlushCounter name delta => wire_line name delta "c"%char
  | UdpFlushGauge name value => wire_line name value "g"%char
  | UdpTimespanComplete name ms => timer_line name ms
  end.

(** A UDP sink whose writer holds socket 3. *)
Definition udp_sink : UdpStatsdSink.t := {| UdpStatsdSink.tls_ := {| Writer.fd_ := 3 |} |}.

(** The calls of a write attempt that has to get its connection first. *)
Definition connect_and_write (up : Upstream) (data : bytes) : list Event :=
  TcpConnForCluster ::
  match tcpConnForCluster up with
  | Some c => [AddConnectionCallbacks c; SetBufferStats c; Connect c; ConnWrite c data]
  | None => []
  end.

(** A sink that holds connection 7. *)
Definition connected_sink : TlsSink := set_connection (Some 7%nat) TlsSink_init.

(** The sink once the close notification of its connection has reached
    [onEvent] ([true]), or before it has ([false]). *)
Definition notified (delivered : bool) (st : TlsSink) : TlsSink :=
  if delivered then set_connection None st else st.

(** ** Teardown of the per-thread sink *)

(** [~TlsSink]: a connection still held is closed without flush; nothing
    is written. *)
Definition TlsSink_destructor : M unit :=
  c <- gets connection_ ;;
  match c with
  | Some conn => emit (Close conn NoFlush)
  | None => ret tt
  end.

(** ** Construction and teardown of the UDP writer *)

(** The calls the writer makes on the operating system. *)
Inductive Syscall : Type :=
| SysSocket
| SysConnect (fd : Z)
| SysSend (fd : Z) (payload : bytes)
| SysClose (fd : Z).

(** Modelled from the spec: [Network::Address::Instance] is defined
    outside these sources.  The address of the collector is kept as far as
    the writer uses it, with nothing assumed of it: what
    [address->socket(Datagram)] returns and what [address->connect(fd)]
    returns. *)
Record Address : Type := { socket : Z; connect : Z -> Z }.

(** [ASSERT] outside the per-thread sink: checked in a debug build only. *)
Definition ASSERT_ (build : Build) (c : bool) : Result unit :=
  match build with
  | Release => Ok tt
  | Debug => if c then Ok tt else Err AssertFailure
  end.

(** Modelled from the spec: [RELEASE_ASSERT] comes from
    common/common/assert.h, outside these sources; it checks its condition
    in every build and aborts when it does not hold. *)
Definition RELEASE_ASSERT (c : bool) : Result unit :=
  if c then Ok tt else Err AssertFailure.

(** [Writer::Writer(address)]. *)
Definition Writer_constructor (build : Build) (address : Address)
  : Result (Writer.t * list Syscall) :=
  let fd := socket address in
  match ASSERT_ build (negb (fd =? -1)) with
  | Err e => Err e
  | Ok _ =>
      let rc := connect address fd in
      match ASSERT_ build (negb (rc =? -1)) with
      | Err e => Err e
      | Ok _ => Ok ({| Writer.fd_ := fd |}, [SysSocket; SysConnect fd])
      end
  end.

(** [Writer::~Writer()]; [close_result] is what [close(fd_)] returns. *)
Definition Writer_destructor (close_result : Z) (w : Writer.t) : Result (list Syscall) :=
  if negb (Writer.fd_ w =? -1) then
    match RELEASE_ASSERT (close_result =? 0) with
    | Err e => Err e
    | Ok _ => Ok [SysClose (Writer.fd_ w)]
    end
  else Ok [].

(** A datagram as the call of [::send] it is. *)
Definition sys_send (d : Datagram) : Syscall := SysSend (dgram_fd d) (dgram_payload d).

(** The life of the writer of one thread: built by the factory of the
    sink on first use, used by the calls of the sink, destroyed with the
    thread. *)
Definition udp_thread (build : Build) (address : Address) (calls : list UdpCall)
    (close_result : Z) : Result (list Syscall) :=
  match Writer_constructor build address with
  | Err e => Err e
  | Ok (w, made) =>
      let sent := flat_map (udp_call {| UdpStatsdSink.tls_ := w |}) calls in
      match Writer_destructor close_result w with
      | Err e => Err e
      | Ok closed => Ok (made ++ map sys_send sent ++ closed)
      end
  end.

(** ** Runs of the TCP sink *)

(** The entry points of the per-thread sink: the [Stats::Sink] interface
    and the connection callback. *)
Inductive Op : Type :=
| OpBeginFlush
| OpFlushCounter (name : bytes) (delta : Z)
| OpFlushGauge (name : bytes) (value : Z)
| OpEndFlush
| OpHistogramComplete (name : bytes) (value : Z)
| OpTimespanComplete (name : bytes) (ms : Z)
| OpEvent (events : Z).

Section Runs.

Variable build : Build.
Variables RemoteClose LocalClose : Z.

Definition run_op (op : Op) : M unit :=
  match op with
  | OpBeginFlush => TcpStatsdSink.beginFlush build
  | OpFlushCounter name delta => TcpStatsdSink.flushCounter build name delta
  | OpFlushGauge name value => TcpStatsdSink.flushGauge build name value
  | OpEndFlush => TcpStatsdSink.endFlush build
  | OpHistogramComplete name value => TcpStatsdSink.onHistogramComplete name value
  | OpTimespanComplete name ms => TcpStatsdSink.onTimespanComplete name ms
  | OpEvent events => onEvent RemoteClose LocalClose events
  end.

(** A run of calls, each with the upstream as it is at the time of the
    call; the calls made on the collaborators add up. *)
Fixpoint run_ops (ops : list (Upstream * Op)) (st : TlsSink)
  : Result (TlsSink * list Event) :=
  match ops with
  | [] => Ok (st, [])
  | (up, op) :: rest =>
      match run_op op up st with
      | Ok (_, st1, out1) =>
          match run_ops rest st1 with
          | Ok (st2, out2) => Ok (st2, out1 ++ out2)
          | Err e => Err e
          end
      | Err e => Err e
      end
  end.

End Runs.

(** The calls of one flush cycle. *)
Definition flush_op (s : Sample) : Op :=
  match s with
  | Counter name delta => OpFlushCounter name delta
  | Gauge name value => OpFlushGauge name value
  end.

Definition flush_ops (up : Upstream) (samples : list Sample) : list (Upstream * Op) :=
  map (fun s => (up, flush_op s)) samples.

Definition cycle_ops (up : Upstream) (samples : list Sample) : list (Upstream * Op) :=
  (up, OpBeginFlush) :: flush_ops up samples ++ [(up, OpEndFlush)].

(** The calls that end in a write attempt. *)
Definition write_attempt (op : Op) : bool :=
  match op with
  | OpEndFlush | OpHistogramComplete _ _ | OpTimespanComplete _ _ => true
  | _ => false
  end.

(** The write attempts of a run made over the ceiling. *)
Definition over_ceiling_attempts (ops : list (Upstream * Op)) : nat :=
  List.length (filter (fun x => write_attempt (snd x) && over_ceiling (fst x)) ops).

(** ** The life of a connection *)

(** Where the sink stands with its connection. *)
Inductive Phase : Type :=
| NoConnection
| Obtained (c : Connection)
| Connected (c : Connection).

Definition phase_of (st : TlsSink) : Phase :=
  match connection_ st with
  | Some c => Connected c
  | None => NoConnection
  end.

(** One call on a collaborator, as the life of a connection allows it: the
    cluster manager is asked only without a connection, a connection is
    registered, given its stats and connected before it is written to or
    closed, it is closed without flush only, and after its deferred deletion
    it is not used again. *)
Definition follow (p : Phase) (e : Event) : option Phase :=
  match e, p with
  | TcpConnForCluster, NoConnection => Some NoConnection
  | AddConnectionCallbacks c, NoConnection => Some (Obtained c)
  | SetBufferStats c, Obtained c' => if Nat.eqb c c' then Some (Obtained c') else None
  | Connect c, Obtained c' => if Nat.eqb c c' then Some (Connected c') else None
  | ConnWrite c _, Connected c' => if Nat.eqb c c' then Some (Connected c') else None
  | Close c NoFlush, Connected c' => if Nat.eqb c c' then Some (Connected c') else None
  | DeferredDelete (Some c), Connected c' => if Nat.eqb c c' then Some NoConnection else None
  | DeferredDelete None, NoConnection => Some NoConnection
  | _, _ => None
  end.

Fixpoint follows (p : Phase) (evs : list Event) : option Phase :=
  match evs with
  | [] => Some p
  | e :: rest =>
      match follow p e with
      | Some p' => follows p' rest
      | None => None
      end
  end.

(** The connections a run obtains, hands to deferred deletion, and the one
    the sink holds. *)
Fixpoint obtained (evs : list Event) : list Connection :=
  match evs with
  | [] => []
  | AddConnectionCallbacks c :: rest => c :: obtained rest
  | _ :: rest => obtained rest
  end.

Fixpoint released (evs : list Event) : list Connection :=
  match evs with
  | [] => []
  | DeferredDelete (Some c) :: rest => c :: released rest
  | _ :: rest => released rest
  end.

Definition held (st : TlsSink) : list Connection :=
  match connection_ st with Some c => [c] | None => [] end.

(** ** Reading a batch back *)

Definition is_digit (c : ascii) : Prop := (48 <= nat_of_ascii c <= 57)%nat.

(** A sample a collector can read back: its name holds no newline and its
    value is a [uint64_t]. *)
Definition readable (s : Sample) : Prop :=
  ~ In LF (sample_name s) /\ 0 <= sample_value s < 2 ^ 64.

(** A line less its newline. *)
Definition sample_body (s : Sample) : bytes :=
  str "envoy." ++ sample_name s ++ str ":" ++ decimal (sample_value s)
  ++ str "|" ++ [sample_type s].

(** A counter whose name is itself the text of a line followed by the
    start of another. *)
Definition smuggling_name (name1 : bytes) (value1 : Z) (name2 : bytes) : bytes :=
  name1 ++ str ":" ++ decimal value1 ++ str "|c" ++ [LF] ++ str "envoy." ++ name2.

(** ** Calls that stay inside the sink *)

(** A method that, when it returns, has made no call on a collaborator and
    has left the connection and the shared counter alone. *)
Definition quiet {A : Type} (m : M A) : Prop :=
  forall up st a st' evs,
    m up st = Ok (a, st', evs) ->
    evs = [] /\ connection_ st' = connection_ st /\ parent_ st' = parent_ st.

(** The error of a call made outside an open cycle: the assertion of a
    debug build, the null cursor of a release build. *)
Definition outside_cycle_error (build : Build) : Error :=
  match build with Debug => AssertFailure | Release => MemoryFault end.

(** A write attempt that returns has made the calls of [write] and left
    the connection and the counter as [write] leaves them. *)
Definition attempted (up : Upstream) (st st' : TlsSink) (evs : list Event) : Prop :=
  (exists data, evs = write_events up st data) /\
  connection_ st' = connection_ (write_state up st) /\
  parent_ st' = parent_ (write_state up st).

(** The connection a phase stands for. *)
Definition phase_held (p : Phase) : list Connection :=
  match p with
  | NoConnection => []
  | Obtained c => [c]
  | Connected c => [c]
  end.

(** The run of the unit test: a cycle of a counter and a gauge, a remote
    close, a timer and a histogram; the cluster manager hands out connection
    7, then connection 8. *)
Definition test_run : list (Upstream * Op) :=
  cycle_ops (up_ok 7%nat) [Counter test_counter 1; Gauge test_gauge 2]
  ++ [(up_ok 8%nat, OpEvent 1);
      (up_ok 8%nat, OpTimespanComplete (str "test_timer") 5);
      (up_ok 8%nat, OpHistogramComplete (str "histogram_test_timer") 15)].

(** The calls of a run of flush cycles, one upstream reading per cycle. *)
Definition cycles_ops (batches : list (Upstream * list Sample)) : list (Upstream * Op) :=
  List.concat (map (fun b => cycle_ops (fst b) (snd b)) batches).

(** The calls of a flush cycle during which a timer completes. *)
Definition cycle_with_timer_ops (up upt : Upstream) (before after : list Sample)
    (name : bytes) (ms : Z) : list (Upstream * Op) :=
  (up, OpBeginFlush) :: flush_ops up before
  ++ (upt, OpTimespanComplete name ms) :: flush_ops up after
  ++ [(up, OpEndFlush)].

(** The digits a histogram value is rendered with: the value itself below
    2^63, and above it the negative number its signed count is. *)
Definition histogram_digits (value : Z) : bytes :=
  if value <? 2 ^ 63 then decimal value else "-"%char :: decimal (2 ^ 64 - value).

(** An address whose socket is 5 and whose connect succeeds, and one whose
    socket cannot be made. *)
Definition address_ok : Address := {| socket := 5; connect := fun _ => 0 |}.
Definition address_failed : Address := {| socket := -1; connect := fun _ => -1 |}.

(** ** The discipline of the cycle *)

(** Whether a flush cycle is open: the cursor into the slice is set. *)
Definition in_cycle (st : TlsSink) : bool := negb (is_nullptr (current_slice_mem_ st)).

(** Where a call is allowed and how it leaves the cycle: [beginFlush]
    opens a cycle where none is open, the flushes keep an open cycle open,
    [endFlush] closes it; the other calls are allowed anywhere and leave the
    cycle as it is. *)
Definition step_cycle (open : bool) (op : Op) : option bool :=
  match op with
  | OpBeginFlush => if open then None else Some true
  | OpFlushCounter _ _ | OpFlushGauge _ _ => if open then Some true else None
  | OpEndFlush => if open then Some false else None
  | OpHistogramComplete _ _ | OpTimespanComplete _ _ | OpEvent _ => Some open
  end.

Fixpoint disciplined (open : bool) (ops : list Op) : option bool :=
  match ops with
  | [] => Some open
  | op :: rest =>
      match step_cycle open op with
      | Some open' => disciplined open' rest
      | None => None
      end
  end.

(** A method that, when it returns, leaves a cycle open. *)
Definition ends_open {A : Type} (m : M A) : Prop :=
  forall up st a st' evs, m up st = Ok (a, st', evs) -> in_cycle st' = true.

(** * Properties *)

(** ** Decimal rendering *)

Lemma itoa_loop_length (fuel : nat) : forall (i : Z) (acc : bytes),
  (List.length acc < List.length (itoa_loop fuel i acc) <= List.length acc + S fuel)%nat.
Proof.
  induction fuel as [|fuel IH]; intros i acc; simpl.
  - lia.
  - destruct (0 <? i / 10).
    + specialize (IH (i / 10) (digit (i mod 10) :: acc)). simpl in IH. lia.
    + simpl. lia.
Qed.

Lemma decimal_size (i : Z) : 1 <= size (decimal i) <= 20.
Proof.
  unfold size, decimal.
  pose proof (itoa_loop_length 19 i []) as H.
  change (List.length (@nil ascii)) with 0%nat in H. lia.
Qed.

Lemma digit_value_digit (d : Z) : 0 <= d < 10 -> digit_value (digit d) = d.
Proof.
  intros H. unfold digit_value, digit.
  rewrite nat_ascii_embedding by lia. lia.
Qed.

Lemma digits_value_cons (c : ascii) (ds : bytes) (start : Z) :
  digits_value (c :: ds) start = digits_value ds (10 * start + digit_value c).
Proof. reflexivity. Qed.

Lemma itoa_loop_value (fuel : nat) : forall (i : Z) (acc : bytes),
  0 <= i < 10 ^ Z.of_nat (S fuel) ->
  digits_value (itoa_loop fuel i acc) 0 = digits_value acc i.
Proof.
  induction fuel as [|fuel IH]; intros i acc Hi.
  - change (10 ^ Z.of_nat 1) with 10 in Hi. cbn [itoa_loop].
    rewrite digits_value_cons, digit_value_digit by (rewrite Z.mod_small; lia).
    rewrite Z.mod_small by lia. reflexivity.
  - cbn [itoa_loop].
    assert (Hd : 0 <= i mod 10 < 10) by (apply Z.mod_pos_bound; lia).
    assert (Hi' : i = 10 * (i / 10) + i mod 10) by (apply Z.div_mod; lia).
    destruct (0 <? i / 10) eqn:E.
    + rewrite IH.
      * rewrite digits_value_cons, digit_value_digit by lia.
        f_equal. lia.
      * rewrite Nat2Z.inj_succ, Z.pow_succ_r in Hi by lia.
        apply Z.ltb_lt in E. split; [lia|].
        apply Z.div_lt_upper_bound; lia.
    + apply Z.ltb_ge in E.
      assert (0 <= i / 10) by (apply Z.div_pos; lia).
      rewrite digits_value_cons, digit_value_digit by lia.
      f_equal. lia.
Qed.

(** The rendering denotes the value it was given. *)
Lemma decimal_value (i : Z) : 0 <= i < 2 ^ 64 -> digits_value (decimal i) 0 = i.
Proof.
  intros H. unfold decimal. rewrite itoa_loop_value.
  - reflexivity.
  - change (10 ^ Z.of_nat 20) with 100000000000000000000.
    change (2 ^ 64) with 18446744073709551616 in H. lia.
Qed.

(** ** Sizes and stores *)

Lemma size_app (a b : bytes) : size (a ++ b) = size a + size b.
Proof. unfold size. rewrite length_app. lia. Qed.

Lemma size_nonneg (a : bytes) : 0 <= size a.
Proof. unfold size. lia. Qed.

Lemma size_cons (c : ascii) (a : bytes) : size (c :: a) = 1 + size a.
Proof. unfold size. simpl List.length. lia. Qed.

Lemma size_repeat (c : ascii) (n : Z) : 0 <= n -> size (repeat c (Z.to_nat n)) = n.
Proof. intros H. unfold size. rewrite repeat_length. lia. Qed.

Lemma to_nat_size (a : bytes) : Z.to_nat (size a) = List.length a.
Proof. unfold size. lia. Qed.

Lemma has_prefix_size (mem pre : bytes) : has_prefix mem pre -> size pre <= size mem.
Proof.
  unfold has_prefix, size. intros H.
  apply (f_equal (@List.length ascii)) in H. rewrite length_firstn in H. lia.
Qed.

Lemma has_prefix_nil (mem : bytes) : has_prefix mem [].
Proof. reflexivity. Qed.

Lemma has_prefix_app_l (mem a b : bytes) : has_prefix mem (a ++ b) -> has_prefix mem a.
Proof.
  unfold has_prefix. intros H.
  assert (E : firstn (List.length a) (firstn (List.length (a ++ b)) mem)
              = firstn (List.length a) mem).
  { rewrite firstn_firstn, length_app, Nat.min_l by lia. reflexivity. }
  rewrite <- E, H.
  rewrite firstn_app, Nat.sub_diag, firstn_all. simpl. apply app_nil_r.
Qed.

(** A store just behind a prefix extends the prefix and keeps the size. *)
Lemma store_prefix (mem pre src : bytes) :
  has_prefix mem pre -> size pre + size src <= size mem ->
  exists mem', store mem (size pre) src = Some mem' /\
               has_prefix mem' (pre ++ src) /\ size mem' = size mem.
Proof.
  intros Hp Hb. unfold store.
  pose proof (size_nonneg pre) as H0.
  replace (0 <=? size pre) with true by (symmetry; apply Z.leb_le; lia).
  replace (size pre + size src <=? size mem) with true by (symmetry; apply Z.leb_le; lia).
  simpl andb. eexists. split; [reflexivity|]. split.
  - unfold has_prefix. rewrite to_nat_size, Hp.
    rewrite app_assoc. rewrite firstn_app, Nat.sub_diag, firstn_all. simpl.
    apply app_nil_r.
  - rewrite to_nat_size. rewrite !size_app.
    unfold size in *. rewrite length_firstn, length_skipn. lia.
Qed.

(** A store that does not fit in the region has no result. *)
Lemma store_outside (mem src : bytes) (off : Z) :
  size mem < off + size src -> store mem off src = None.
Proof.
  intros H. unfold store.
  replace (off + size src <=? size mem) with false by (symmetry; apply Z.leb_gt; lia).
  rewrite andb_false_r. reflexivity.
Qed.

(** ** The flush buffer *)

Lemma drain_nat_all (b : Buffer.OwnedImpl) :
  forall n, (List.length (Buffer.contents b) <= n)%nat -> Buffer.drain_nat b n = [].
Proof.
  unfold Buffer.contents.
  induction b as [|s rest IH]; intros n Hn; simpl.
  - reflexivity.
  - simpl in Hn. rewrite length_app in Hn.
    replace (List.length s <=? n)%nat with true by (symmetry; apply Nat.leb_le; lia).
    apply IH. lia.
Qed.

(** Draining the whole length empties the buffer. *)
Lemma drain_length (b : Buffer.OwnedImpl) : Buffer.drain b (Buffer.length b) = [].
Proof.
  unfold Buffer.drain, Buffer.length. apply drain_nat_all.
  rewrite to_nat_size. lia.
Qed.

Lemma contents_commit (b : Buffer.OwnedImpl) (s : Buffer.RawSlice) :
  Buffer.contents (Buffer.commit b s) =
  Buffer.contents b ++ firstn (Z.to_nat (Buffer.len_ s)) (Buffer.mem_ s).
Proof.
  unfold Buffer.contents, Buffer.commit.
  rewrite concat_app. simpl. rewrite app_nil_r. reflexivity.
Qed.

Lemma length_nil : Buffer.length [] = 0.
Proof. reflexivity. Qed.

(** ** Running the monad *)

(** What follows holds in a debug build and in a release build. *)
Section AnyBuild.

Variable build : Build.

Lemma bind_silent {A B : Type} (m : M A) (f : A -> M B) up st a st' :
  m up st = Ok (a, st', []) -> bind m f up st = f a up st'.
Proof.
  intros E. unfold bind. rewrite E.
  destruct (f a up st') as [[[b st2] out2]|e]; reflexivity.
Qed.

Lemma bind_err {A B : Type} (m : M A) (f : A -> M B) up st e :
  m up st = Err e -> bind m f up st = Err e.
Proof. intros E. unfold bind. rewrite E. reflexivity. Qed.

Lemma bind_ret {A B : Type} (a : A) (f : A -> M B) up st :
  bind (ret a) f up st = f a up st.
Proof. apply bind_silent. reflexivity. Qed.

Lemma bind_gets {A B : Type} (g : TlsSink -> A) (f : A -> M B) up st :
  bind (gets g) f up st = f (g st) up st.
Proof. apply bind_silent. reflexivity. Qed.

Lemma bind_ask {B : Type} (f : Upstream -> M B) up st :
  bind ask f up st = f up up st.
Proof. apply bind_silent. reflexivity. Qed.

Lemma bind_modify {B : Type} (g : TlsSink -> TlsSink) (f : unit -> M B) up st :
  bind (modify g) f up st = f tt up (g st).
Proof. apply bind_silent. reflexivity. Qed.

Lemma bind_ASSERT {B : Type} (c : bool) (f : unit -> M B) up st :
  build = Release \/ c = true -> bind (ASSERT build c) f up st = f tt up st.
Proof.
  intros H. apply bind_silent. unfold ASSERT.
  destruct build; [|reflexivity].
  destruct H as [H | ->]; [discriminate H | reflexivity].
Qed.

Lemma bind_ASSERT_false {B : Type} (c : bool) (f : unit -> M B) up st :
  c = false -> bind (ASSERT Debug c) f up st = Err AssertFailure.
Proof. intros ->. reflexivity. Qed.

(** ** The state of an open flush cycle *)

Lemma open_slice_room p0 c0 B L pre st :
  open_slice p0 c0 B L pre st -> size pre <= L.
Proof.
  intros (_ & _ & _ & _ & _ & Hs & Hp). rewrite <- Hs.
  apply has_prefix_size. exact Hp.
Qed.

Lemma advance_eq (n c : Z) up st :
  current_slice_mem_ st = Some c ->
  advance n up st = Ok (tt, set_current_slice_mem (Some (c + n)) st, []).
Proof. intros E. unfold advance. rewrite bind_gets, E. reflexivity. Qed.

(** A store behind the written prefix, with the cursor left in place. *)
Lemma store_at_open p0 c0 B L pre src up st :
  open_slice p0 c0 B L pre st -> size pre + size src <= L ->
  exists st', store_at (Some (size pre)) src up st = Ok (tt, st', []) /\
    parent_ st' = p0 /\ connection_ st' = c0 /\ buffer_ st' = B /\
    current_slice_mem_ st' = Some (size pre) /\
    Buffer.len_ (current_buffer_slice_ st') = L /\
    size (Buffer.mem_ (current_buffer_slice_ st')) = L /\
    has_prefix (Buffer.mem_ (current_buffer_slice_ st')) (pre ++ src).
Proof.
  intros (Hp0 & Hc0 & HB & Hcur & Hlen & Hsz & Hpre) Hroom.
  destruct (store_prefix _ _ src Hpre) as (mem' & Hst & Hpre' & Hsz'); [lia|].
  unfold store_at. rewrite bind_gets, Hst.
  eexists. split; [reflexivity|].
  cbn [parent_ connection_ buffer_ current_slice_mem_ current_buffer_slice_
       set_current_buffer_slice Buffer.len_ Buffer.mem_].
  repeat split; try assumption. lia.
Qed.

(** [memcpy] through the cursor, then the cursor moves on. *)
Lemma run_memcpy {B' : Type} p0 c0 B L pre src n (k : M B') up st :
  open_slice p0 c0 B L pre st -> 0 <= n -> size pre + n <= L -> n <= size src ->
  exists st', open_slice p0 c0 B L (pre ++ firstn (Z.to_nat n) src) st' /\
    (p <- gets current_slice_mem_ ;; memcpy p src n ;; advance n ;; k) up st = k up st'.
Proof.
  intros Hopen Hn Hroom Hsrc.
  assert (Hsz : size (firstn (Z.to_nat n) src) = n).
  { unfold size in *. rewrite length_firstn. lia. }
  destruct (store_at_open _ _ _ _ _ (firstn (Z.to_nat n) src) up _ Hopen)
    as (st1 & E1 & Hp0 & Hc0 & HB & Hcur & Hlen & Hs & Hpre); [lia|].
  exists (set_current_slice_mem (Some (size pre + n)) st1). split.
  - unfold open_slice.
    cbn [parent_ connection_ buffer_ current_slice_mem_ current_buffer_slice_
         set_current_slice_mem].
    rewrite size_app, Hsz. repeat split; assumption.
  - rewrite bind_gets.
    destruct Hopen as (_ & _ & _ & Hcur0 & _). rewrite Hcur0.
    unfold memcpy. rewrite (bind_silent _ _ _ _ _ _ E1).
    rewrite (bind_silent _ _ _ _ _ _ (advance_eq n _ up _ Hcur)). reflexivity.
Qed.

(** One char through the cursor. *)
Lemma put_open p0 c0 B L pre c up st :
  open_slice p0 c0 B L pre st -> size pre + 1 <= L ->
  exists st', open_slice p0 c0 B L (pre ++ [c]) st' /\
    put c up st = Ok (tt, st', []).
Proof.
  intros Hopen Hroom.
  destruct (store_at_open _ _ _ _ _ [c] up _ Hopen)
    as (st1 & E1 & Hp0 & Hc0 & HB & Hcur & Hlen & Hs & Hpre).
  { rewrite size_cons. change (size []) with 0. lia. }
  exists (set_current_slice_mem (Some (size pre + 1)) st1). split.
  - unfold open_slice.
    cbn [parent_ connection_ buffer_ current_slice_mem_ current_buffer_slice_
         set_current_slice_mem].
    rewrite size_app, size_cons. change (size []) with 0.
    repeat split; assumption.
  - unfold put. rewrite bind_gets.
    destruct Hopen as (_ & _ & _ & Hcur0 & _). rewrite Hcur0.
    rewrite (bind_silent _ _ _ _ _ _ E1).
    apply advance_eq. exact Hcur.
Qed.

Lemma run_put {B' : Type} p0 c0 B L pre c (k : M B') up st :
  open_slice p0 c0 B L pre st -> size pre + 1 <= L ->
  exists st', open_slice p0 c0 B L (pre ++ [c]) st' /\
    (put c ;; k) up st = k up st'.
Proof.
  intros Hopen Hroom.
  destruct (put_open _ _ _ _ _ c up _ Hopen Hroom) as (st' & Hopen' & E).
  exists st'. split; [exact Hopen'|].
  rewrite (bind_silent _ _ _ _ _ _ E). reflexivity.
Qed.

(** The digits of the value through the cursor. *)
Lemma run_itoa {B' : Type} p0 c0 B L pre value (k : M B') up st :
  open_slice p0 c0 B L pre st -> size pre + 30 <= L ->
  exists st', open_slice p0 c0 B L (pre ++ decimal value) st' /\
    (p <- gets current_slice_mem_ ;; n <- itoa p 30 value ;; advance n ;; k) up st
    = k up st'.
Proof.
  intros Hopen Hroom.
  pose proof (decimal_size value) as Hd.
  destruct (store_at_open _ _ _ _ _ (decimal value ++ [NUL]) up _ Hopen)
    as (st1 & E1 & Hp0 & Hc0 & HB & Hcur & Hlen & Hs & Hpre).
  { rewrite size_app, size_cons. change (size []) with 0. lia. }
  exists (set_current_slice_mem (Some (size pre + size (decimal value))) st1). split.
  - unfold open_slice.
    cbn [parent_ connection_ buffer_ current_slice_mem_ current_buffer_slice_
         set_current_slice_mem].
    rewrite size_app. repeat split; try assumption.
    rewrite app_assoc in Hpre. apply has_prefix_app_l in Hpre. exact Hpre.
  - rewrite bind_gets.
    destruct Hopen as (_ & _ & _ & Hcur0 & _ & Hs0 & _). rewrite Hcur0.
    assert (Eitoa : itoa (Some (size pre)) 30 value up st
                    = Ok (size (decimal value), st1, [])).
    { unfold itoa. rewrite bind_gets, Hs0.
      pose proof (size_nonneg pre).
      replace (0 <=? size pre) with true by (symmetry; apply Z.leb_le; lia).
      replace (size pre + 30 <=? L) with true by (symmetry; apply Z.leb_le; lia).
      cbn [andb]. rewrite (bind_silent _ _ _ _ _ _ E1). reflexivity. }
    rewrite (bind_silent _ _ _ _ _ _ Eitoa).
    rewrite (bind_silent _ _ _ _ _ _ (advance_eq _ _ up _ Hcur)). reflexivity.
Qed.

(** ** The methods, one by one *)

Lemma usedBuffer_eq (off : Z) up st :
  current_slice_mem_ st = Some off -> usedBuffer build up st = Ok (wrap64 off, st, []).
Proof.
  intros E. unfold usedBuffer. rewrite bind_gets, E.
  rewrite bind_ASSERT by (right; reflexivity). reflexivity.
Qed.

Lemma beginFlush_eq (expect_empty_buffer : bool) up st :
  current_slice_mem_ st = None ->
  build = Release \/ expect_empty_buffer = false \/ Buffer.length (buffer_ st) = 0 ->
  beginFlush build expect_empty_buffer up st = Ok (tt, begun st, []).
Proof.
  intros Hcur Hexp. unfold beginFlush.
  rewrite bind_gets, bind_ASSERT.
  - rewrite bind_gets, Hcur, bind_ASSERT by (right; reflexivity).
    cbn [Buffer.reserve]. rewrite bind_modify.
    rewrite bind_ASSERT by (right; reflexivity).
    rewrite bind_ASSERT by (right; reflexivity).
    reflexivity.
  - destruct Hexp as [H | [-> | ->]]; [left; exact H | right; reflexivity |].
    right. apply orb_true_r.
Qed.

(** [beginFlush(true)] on a buffer that still holds data. *)
Lemma beginFlush_stale up st :
  Buffer.length (buffer_ st) <> 0 -> beginFlush Debug true up st = Err AssertFailure.
Proof.
  intros H. unfold beginFlush. rewrite bind_gets.
  apply bind_ASSERT_false. cbn [negb orb]. apply Z.eqb_neq. exact H.
Qed.

Lemma begun_open st :
  open_slice (parent_ st) (connection_ st) (buffer_ st) FlushSliceSizeBytes [] (begun st).
Proof.
  unfold open_slice, begun.
  cbn [parent_ connection_ buffer_ current_slice_mem_ current_buffer_slice_
       set_current_slice_mem set_current_buffer_slice Buffer.reserve snd
       Buffer.len_ Buffer.mem_].
  do 5 (split; [reflexivity|]). split.
  - apply size_repeat. unfold FlushSliceSizeBytes. lia.
  - apply has_prefix_nil.
Qed.

Lemma endFlush_eq (do_write : bool) (off : Z) up st :
  current_slice_mem_ st = Some off ->
  endFlush build do_write up st =
  if do_write then
    match write (buffer_ (committed off st)) up (committed off st) with
    | Ok (b', st2, evs) => Ok (tt, set_buffer b' st2, evs)
    | Err e => Err e
    end
  else Ok (tt, committed off st, []).
Proof.
  intros Hcur. unfold endFlush.
  rewrite bind_gets, Hcur, bind_ASSERT by (right; reflexivity).
  rewrite (bind_silent _ _ _ _ _ _ (usedBuffer_eq off up st Hcur)).
  rewrite bind_gets, bind_modify, bind_gets, bind_gets, bind_modify, bind_modify.
  fold (committed off st).
  destruct do_write; [|reflexivity].
  rewrite bind_gets. unfold bind.
  destruct (write _ up _) as [[[b' st2] evs]|e]; [|reflexivity].
  cbn [modify]. rewrite app_nil_r. reflexivity.
Qed.

(** Committing an open slice appends what was written in it. *)
Lemma committed_open p0 c0 B L pre st :
  open_slice p0 c0 B L pre st -> L < 2 ^ 64 ->
  parent_ (committed (size pre) st) = p0 /\
  connection_ (committed (size pre) st) = c0 /\
  buffer_ (committed (size pre) st) = B ++ [pre] /\
  current_slice_mem_ (committed (size pre) st) = None.
Proof.
  intros Hopen HL.
  pose proof (open_slice_room _ _ _ _ _ _ Hopen) as Hroom.
  destruct Hopen as (Hp0 & Hc0 & HB & Hcur & Hlen & Hsz & Hpre).
  unfold committed.
  cbn [parent_ connection_ buffer_ current_slice_mem_ current_buffer_slice_
       set_current_slice_mem set_buffer set_current_buffer_slice].
  repeat split; try assumption.
  unfold Buffer.commit. cbn [Buffer.len_ Buffer.mem_].
  pose proof (size_nonneg pre).
  unfold wrap64. rewrite Z.mod_small by lia.
  rewrite to_nat_size, HB. unfold has_prefix in Hpre. rewrite Hpre. reflexivity.
Qed.

(** The four ways through [write]. *)
Lemma write_over (buffer : Buffer.OwnedImpl) up st :
  MaxBufferedStatsBytes < upstream_cx_tx_bytes_buffered_ up ->
  write buffer up st =
  Ok ([], inc_cx_overflow_stat st,
      match connection_ st with Some conn => [Close conn NoFlush] | None => [] end).
Proof.
  intros H. unfold write. rewrite bind_ask.
  replace (MaxBufferedStatsBytes <? upstream_cx_tx_bytes_buffered_ up) with true
    by (symmetry; apply Z.ltb_lt; exact H).
  rewrite bind_gets, drain_length.
  destruct (connection_ st); reflexivity.
Qed.

Lemma write_connected (buffer : Buffer.OwnedImpl) (c : Connection) up st :
  upstream_cx_tx_bytes_buffered_ up <= MaxBufferedStatsBytes ->
  connection_ st = Some c ->
  write buffer up st = Ok ([], st, [ConnWrite c (Buffer.contents buffer)]).
Proof.
  intros H Hc. unfold write. rewrite bind_ask.
  replace (MaxBufferedStatsBytes <? upstream_cx_tx_bytes_buffered_ up) with false
    by (symmetry; apply Z.ltb_ge; exact H).
  rewrite bind_gets, Hc. unfold connection_write. rewrite bind_gets, Hc. reflexivity.
Qed.

Lemma write_connect (buffer : Buffer.OwnedImpl) (c : Connection) up st :
  upstream_cx_tx_bytes_buffered_ up <= MaxBufferedStatsBytes ->
  connection_ st = None -> tcpConnForCluster up = Some c ->
  write buffer up st =
  Ok ([], set_connection (Some c) st,
      [TcpConnForCluster; AddConnectionCallbacks c; SetBufferStats c; Connect c;
       ConnWrite c (Buffer.contents buffer)]).
Proof.
  intros H Hc Hp. unfold write. rewrite bind_ask.
  replace (MaxBufferedStatsBytes <? upstream_cx_tx_bytes_buffered_ up) with false
    by (symmetry; apply Z.ltb_ge; exact H).
  rewrite bind_gets, Hc, Hp. reflexivity.
Qed.

Lemma write_unobtainable (buffer : Buffer.OwnedImpl) up st :
  upstream_cx_tx_bytes_buffered_ up <= MaxBufferedStatsBytes ->
  connection_ st = None -> tcpConnForCluster up = None ->
  write buffer up st = Ok (buffer, st, [TcpConnForCluster]).
Proof.
  intros H Hc Hp. unfold write. rewrite bind_ask.
  replace (MaxBufferedStatsBytes <? upstream_cx_tx_bytes_buffered_ up) with false
    by (symmetry; apply Z.ltb_ge; exact H).
  rewrite bind_gets, Hc, Hp. reflexivity.
Qed.

(** ** Encoding one sample *)

Lemma sizeof_StatPrefix_eq : sizeof_StatPrefix - 1 = 6.
Proof. reflexivity. Qed.

(** The stores of [commonFlush], from the prefix to the newline, when the
    slice has room for the name and the margin. *)
Lemma run_encode p0 c0 B L pre name value stat_type up st :
  open_slice p0 c0 B L pre st -> size pre + (size name + 40) <= L ->
  exists st', open_slice p0 c0 B L (pre ++ wire_line name value stat_type) st' /\
    (p <- gets current_slice_mem_ ;;
     memcpy p StatPrefix (sizeof_StatPrefix - 1) ;;
     advance (sizeof_StatPrefix - 1) ;;
     p <- gets current_slice_mem_ ;;
     memcpy p name (size name) ;;
     advance (size name) ;;
     put ":"%char ;;
     p <- gets current_slice_mem_ ;;
     n <- itoa p 30 value ;;
     advance n ;;
     put "|"%char ;;
     put stat_type ;;
     put LF) up st = Ok (tt, st', []).
Proof.
  intros H0 Hroom.
  pose proof (size_nonneg pre) as Hpre. pose proof (size_nonneg name) as Hname.
  pose proof (decimal_size value) as Hdec.
  rewrite sizeof_StatPrefix_eq.
  set (x1 := pre ++ str "envoy.").
  set (x2 := x1 ++ name).
  set (x3 := x2 ++ [":"%char]).
  set (x4 := x3 ++ decimal value).
  set (x5 := x4 ++ ["|"%char]).
  set (x6 := x5 ++ [stat_type]).
  assert (S1 : size x1 = size pre + 6) by (unfold x1; rewrite size_app; reflexivity).
  assert (S2 : size x2 = size x1 + size name) by (unfold x2; apply size_app).
  assert (S3 : size x3 = size x2 + 1) by (unfold x3; rewrite size_app; reflexivity).
  assert (S4 : size x4 = size x3 + size (decimal value)) by (unfold x4; apply size_app).
  assert (S5 : size x5 = size x4 + 1) by (unfold x5; rewrite size_app; reflexivity).
  assert (S6 : size x6 = size x5 + 1) by (unfold x6; rewrite size_app; reflexivity).
  edestruct (run_memcpy (B' := unit) p0 c0 B L pre StatPrefix 6) as (st1 & H1 & E1);
    [exact H0 | lia | lia | (change (size StatPrefix) with 7; lia) | ].
  rewrite E1; clear E1.
  change (pre ++ firstn (Z.to_nat 6) StatPrefix) with x1 in H1.
  edestruct (run_memcpy (B' := unit) p0 c0 B L x1 name (size name)) as (st2 & H2 & E2);
    [exact H1 | lia | lia | lia | ].
  rewrite E2; clear E2.
  rewrite to_nat_size, firstn_all in H2. fold x2 in H2.
  edestruct (run_put (B' := unit) p0 c0 B L x2 ":"%char) as (st3 & H3 & E3);
    [exact H2 | lia | ].
  rewrite E3; clear E3. fold x3 in H3.
  edestruct (run_itoa (B' := unit) p0 c0 B L x3 value) as (st4 & H4 & E4);
    [exact H3 | lia | ].
  rewrite E4; clear E4. fold x4 in H4.
  edestruct (run_put (B' := unit) p0 c0 B L x4 "|"%char) as (st5 & H5 & E5);
    [exact H4 | lia | ].
  rewrite E5; clear E5. fold x5 in H5.
  edestruct (run_put (B' := unit) p0 c0 B L x5 stat_type) as (st6 & H6 & E6);
    [exact H5 | lia | ].
  rewrite E6; clear E6. fold x6 in H6.
  destruct (put_open p0 c0 B L x6 LF up st6) as (st7 & H7 & E7); [exact H6 | lia | ].
  exists st7. split; [|exact E7].
  unfold x6, x5, x4, x3, x2, x1 in H7.
  unfold wire_line. repeat rewrite <- app_assoc in H7.
  repeat rewrite <- app_assoc. exact H7.
Qed.

(** [commonFlush] when the current slice has room: the line is written
    behind what the slice holds. *)
Lemma commonFlush_room p0 c0 B L pre name value stat_type up st :
  open_slice p0 c0 B L pre st -> L < 2 ^ 64 ->
  size pre + (size name + 40) <= L ->
  exists st', commonFlush build name value stat_type up st = Ok (tt, st', []) /\
    open_slice p0 c0 B L (pre ++ wire_line name value stat_type) st'.
Proof.
  intros Hopen HL Hroom.
  pose proof (size_nonneg pre) as Hpre. pose proof (size_nonneg name) as Hname.
  destruct (run_encode _ _ _ _ _ name value stat_type up _ Hopen Hroom)
    as (st' & Hopen' & E).
  exists st'. split; [|exact Hopen'].
  destruct Hopen as (_ & _ & _ & Hcur & Hlen & _).
  unfold commonFlush.
  rewrite bind_gets, Hcur, bind_ASSERT by (right; reflexivity).
  rewrite bind_gets, Hlen.
  rewrite (bind_silent _ _ _ _ _ _ (usedBuffer_eq _ up st Hcur)).
  unfold wrap64 at 2. rewrite (Z.mod_small (size pre)) by lia.
  unfold wrap64. rewrite !Z.mod_small by lia.
  replace (L - size pre <? size name + 40) with false
    by (symmetry; apply Z.ltb_ge; lia).
  rewrite bind_ret. exact E.
Qed.

(** [commonFlush] when the current slice is short of room: the slice is
    committed as it is and the line opens a fresh one. *)
Lemma commonFlush_rotate p0 c0 B L pre name value stat_type up st :
  open_slice p0 c0 B L pre st -> L < 2 ^ 64 ->
  L < size pre + (size name + 40) ->
  size name + 40 <= FlushSliceSizeBytes ->
  exists st', commonFlush build name value stat_type up st = Ok (tt, st', []) /\
    open_slice p0 c0 (B ++ [pre]) FlushSliceSizeBytes
      (wire_line name value stat_type) st'.
Proof.
  intros Hopen HL Hshort Hfits.
  pose proof (size_nonneg pre) as Hpre. pose proof (size_nonneg name) as Hname.
  pose proof (open_slice_room _ _ _ _ _ _ Hopen) as Hin.
  destruct (committed_open _ _ _ _ _ _ Hopen HL) as (Cp & Cc & Cb & Ccur).
  pose proof (begun_open (committed (size pre) st)) as Hbegun.
  rewrite Cp, Cc, Cb in Hbegun.
  destruct (run_encode _ _ _ _ _ name value stat_type up _ Hbegun)
    as (st' & Hopen' & E).
  { change (size []) with 0. lia. }
  exists st'. split; [|exact Hopen'].
  destruct Hopen as (_ & _ & _ & Hcur & Hlen & _).
  unfold commonFlush.
  rewrite bind_gets, Hcur, bind_ASSERT by (right; reflexivity).
  rewrite bind_gets, Hlen.
  rewrite (bind_silent _ _ _ _ _ _ (usedBuffer_eq _ up st Hcur)).
  unfold wrap64 at 2. rewrite (Z.mod_small (size pre)) by lia.
  unfold wrap64.
  assert (Hbig : FlushSliceSizeBytes < 2 ^ 64) by reflexivity.
  rewrite !Z.mod_small by lia.
  replace (L - size pre <? size name + 40) with true
    by (symmetry; apply Z.ltb_lt; lia).
  assert (Erot : (endFlush build false ;; beginFlush build false) up st
                 = Ok (tt, begun (committed (size pre) st), [])).
  { rewrite (bind_silent _ _ _ _ _ _ (endFlush_eq false _ up st Hcur)).
    apply beginFlush_eq; [exact Ccur | right; left; reflexivity]. }
  rewrite (bind_silent _ _ _ _ _ _ Erot). exact E.
Qed.

(** ** A whole flush cycle *)

Lemma contents_snoc (B : Buffer.OwnedImpl) (s : bytes) :
  Buffer.contents (B ++ [s]) = Buffer.contents B ++ s.
Proof.
  unfold Buffer.contents. rewrite concat_app. simpl. rewrite app_nil_r. reflexivity.
Qed.

Lemma commonFlush_cycle p0 c0 flushed name value stat_type up st :
  cycle_open p0 c0 flushed st -> size name + 40 <= FlushSliceSizeBytes ->
  exists st', commonFlush build name value stat_type up st = Ok (tt, st', []) /\
    cycle_open p0 c0 (flushed ++ wire_line name value stat_type) st'.
Proof.
  intros (B & L & pre & Hopen & HL & HY) Hfits.
  destruct (Z_le_gt_dec (size pre + (size name + 40)) L) as [Hroom | Hshort].
  - destruct (commonFlush_room _ _ _ _ _ name value stat_type up _ Hopen HL Hroom)
      as (st' & E & Hopen').
    exists st'. split; [exact E|].
    exists B, L, (pre ++ wire_line name value stat_type).
    split; [exact Hopen'|]. split; [exact HL|].
    rewrite app_assoc, HY. reflexivity.
  - destruct (commonFlush_rotate _ _ _ _ _ name value stat_type up _ Hopen HL)
      as (st' & E & Hopen'); [lia | exact Hfits |].
    exists st'. split; [exact E|].
    exists (B ++ [pre]), FlushSliceSizeBytes, (wire_line name value stat_type).
    split; [exact Hopen'|]. split; [reflexivity|].
    rewrite contents_snoc, HY. reflexivity.
Qed.

Lemma flushSample_cycle p0 c0 flushed s up st :
  cycle_open p0 c0 flushed st -> fits s ->
  exists st', flushSample build s up st = Ok (tt, st', []) /\
    cycle_open p0 c0 (flushed ++ sample_line s) st'.
Proof.
  intros Hopen Hfits. destruct s as [name delta | name value];
    apply commonFlush_cycle; assumption.
Qed.

Lemma flushAll_cycle p0 c0 samples : forall flushed up st,
  cycle_open p0 c0 flushed st -> Forall fits samples ->
  exists st', flushAll build samples up st = Ok (tt, st', []) /\
    cycle_open p0 c0 (flushed ++ wire samples) st'.
Proof.
  induction samples as [|s rest IH]; intros flushed up st Hopen Hfits.
  - exists st. split; [reflexivity|].
    unfold wire. simpl. rewrite app_nil_r. exact Hopen.
  - inversion Hfits as [|? ? Hs Hrest]; subst.
    destruct (flushSample_cycle _ _ _ s up _ Hopen Hs) as (st1 & E1 & Hopen1).
    destruct (IH _ up _ Hopen1 Hrest) as (st2 & E2 & Hopen2).
    exists st2. split.
    + cbn [flushAll]. rewrite (bind_silent _ _ _ _ _ _ E1). exact E2.
    + unfold wire in *. cbn [map List.concat]. rewrite app_assoc. exact Hopen2.
Qed.

(** Up to the final [write], a cycle that starts on an idle sink (with an
    empty buffer, or in a build that does not check it) gathers the lines of
    its samples, in order, behind what the buffer holds. *)
Lemma flushCycle_eq (samples : list Sample) up st :
  idle st -> build = Release \/ Buffer.length (buffer_ st) = 0 ->
  Forall fits samples ->
  exists st1,
    parent_ st1 = parent_ st /\ connection_ st1 = connection_ st /\
    idle st1 /\
    Buffer.contents (buffer_ st1) = Buffer.contents (buffer_ st) ++ wire samples /\
    flushCycle build samples up st =
    match write (buffer_ st1) up st1 with
    | Ok (b', st2, evs) => Ok (tt, set_buffer b' st2, evs)
    | Err e => Err e
    end.
Proof.
  intros Hidle Hempty Hfits.
  assert (Hopen0 : cycle_open (parent_ st) (connection_ st)
                     (Buffer.contents (buffer_ st)) (begun st)).
  { exists (buffer_ st), FlushSliceSizeBytes, []. split; [apply begun_open|].
    split; [reflexivity | apply app_nil_r]. }
  destruct (flushAll_cycle _ _ samples _ up _ Hopen0 Hfits)
    as (st1 & E1 & B & L & pre & Hopen1 & HL & HY).
  destruct (committed_open _ _ _ _ _ _ Hopen1 HL) as (Cp & Cc & Cb & Ccur).
  exists (committed (size pre) st1).
  split; [exact Cp|]. split; [exact Cc|]. split; [exact Ccur|]. split.
  - rewrite Cb, contents_snoc. exact HY.
  - unfold flushCycle, TcpStatsdSink.beginFlush, TcpStatsdSink.endFlush.
    assert (Hbegin : build = Release \/ true = false \/ Buffer.length (buffer_ st) = 0)
      by (destruct Hempty as [H | H]; [left; exact H | right; right; exact H]).
    rewrite (bind_silent _ _ _ _ _ _ (beginFlush_eq true up st Hidle Hbegin)).
    rewrite (bind_silent _ _ _ _ _ _ E1).
    destruct Hopen1 as (_ & _ & _ & Hcur & _).
    apply (endFlush_eq true _ up st1 Hcur).
Qed.

Lemma within_slice_open st :
  within_slice st ->
  exists pre, open_slice (parent_ st) (connection_ st) (buffer_ st)
                (Buffer.len_ (current_buffer_slice_ st)) pre st.
Proof.
  intros (off & Hcur & Hoff & Hsz & _).
  exists (firstn (Z.to_nat off) (Buffer.mem_ (current_buffer_slice_ st))).
  assert (Hlen : List.length (firstn (Z.to_nat off) (Buffer.mem_ (current_buffer_slice_ st)))
                 = Z.to_nat off).
  { rewrite length_firstn. unfold size in Hsz. lia. }
  unfold open_slice. do 3 (split; [reflexivity|]). split.
  - rewrite Hcur. f_equal. unfold size. rewrite Hlen. lia.
  - split; [reflexivity|]. split; [exact Hsz|].
    unfold has_prefix. rewrite Hlen. reflexivity.
Qed.

Lemma open_within_slice p0 c0 B L pre st :
  open_slice p0 c0 B L pre st -> L < 2 ^ 64 -> within_slice st.
Proof.
  intros Hopen HL. pose proof (open_slice_room _ _ _ _ _ _ Hopen) as Hroom.
  destruct Hopen as (_ & _ & _ & Hcur & Hlen & Hsz & _).
  exists (size pre). rewrite Hlen, Hsz.
  pose proof (size_nonneg pre). repeat split; try assumption; lia.
Qed.

Lemma wire_line_size name value stat_type :
  size (wire_line name value stat_type) <= size name + 30.
Proof.
  unfold wire_line. rewrite !size_app.
  pose proof (decimal_size value).
  change (size (str "envoy.")) with 6. change (size (str ":")) with 1.
  change (size (str "|")) with 1. change (size [stat_type]) with 1.
  change (size [LF]) with 1. lia.
Qed.

(** C10. For every [commonFlush] (so every [flushCounter] and
    [flushGauge]) in an open cycle whose cursor stands inside the current
    slice, and every name with [name.size() + 40 <= 16384]: no store leaves
    the reserved slice (the call returns without a memory fault), the cursor
    again stands inside the slice it points into, and the line written takes
    at most [name.size() + 30] bytes, inside the margin of 40. *)
Theorem commonFlush_stays_in_slice :
  forall (name : bytes) (value : Z) (stat_type : ascii) (up : Upstream) (st : TlsSink),
    within_slice st ->
    size name + 40 <= FlushSliceSizeBytes ->
    exists st',
      commonFlush build name value stat_type up st = Ok (tt, st', []) /\
      within_slice st' /\
      size (wire_line name value stat_type) <= size name + 40.
Proof.
  intros name value stat_type up st Hin Hfits.
  destruct (within_slice_open st Hin) as (pre & Hopen).
  assert (HL : Buffer.len_ (current_buffer_slice_ st) < 2 ^ 64)
    by (destruct Hin as (? & _ & _ & _ & H); exact H).
  pose proof (wire_line_size name value stat_type) as Hline.
  destruct (Z_le_gt_dec (size pre + (size name + 40))
              (Buffer.len_ (current_buffer_slice_ st))) as [Hroom | Hshort].
  - destruct (commonFlush_room _ _ _ _ _ name value stat_type up _ Hopen HL Hroom)
      as (st' & E & Hopen').
    exists st'. split; [exact E|]. split; [|lia].
    apply (open_within_slice _ _ _ _ _ _ Hopen' HL).
  - destruct (commonFlush_rotate _ _ _ _ _ name value stat_type up _ Hopen HL)
      as (st' & E & Hopen'); [lia | exact Hfits |].
    exists st'. split; [exact E|]. split; [|lia].
    apply (open_within_slice _ _ _ _ _ _ Hopen'). reflexivity.
Qed.

(** ** [write] as a function of the upstream and the sink *)

Lemma set_connection_same st : set_connection (connection_ st) st = st.
Proof. destruct st; reflexivity. Qed.

Lemma write_eq (buffer : Buffer.OwnedImpl) up st :
  write buffer up st =
  Ok (write_left up st buffer, write_state up st,
      write_events up st (Buffer.contents buffer)).
Proof.
  unfold write_left, write_state, write_events, taker, over_ceiling.
  destruct (Z_lt_le_dec MaxBufferedStatsBytes (upstream_cx_tx_bytes_buffered_ up))
    as [Hover | Hunder].
  - rewrite (write_over _ up st Hover).
    replace (MaxBufferedStatsBytes <? upstream_cx_tx_bytes_buffered_ up) with true
      by (symmetry; apply Z.ltb_lt; exact Hover).
    reflexivity.
  - replace (MaxBufferedStatsBytes <? upstream_cx_tx_bytes_buffered_ up) with false
      by (symmetry; apply Z.ltb_ge; exact Hunder).
    destruct (connection_ st) as [c|] eqn:Hconn.
    + apply write_connected; assumption.
    + destruct (tcpConnForCluster up) as [c|] eqn:Hprov.
      * apply write_connect; assumption.
      * rewrite <- Hconn, set_connection_same.
        apply write_unobtainable; assumption.
Qed.

Lemma conn_writes_write_events up st data :
  conn_writes (write_events up st data) = handed up st data.
Proof.
  unfold write_events, handed, taker.
  destruct (over_ceiling up).
  - destruct (connection_ st); reflexivity.
  - destruct (connection_ st); [reflexivity|].
    destruct (tcpConnForCluster up); reflexivity.
Qed.

Lemma handed_connection up st st' data :
  connection_ st' = connection_ st -> handed up st' data = handed up st data.
Proof. intros H. unfold handed, taker. rewrite H. reflexivity. Qed.

(** A whole cycle, as a function of the upstream and the sink. *)
Lemma flushCycle_run_stale (samples : list Sample) up st :
  idle st -> build = Release \/ Buffer.length (buffer_ st) = 0 ->
  Forall fits samples ->
  exists st1,
    parent_ st1 = parent_ st /\ connection_ st1 = connection_ st /\
    idle st1 /\
    Buffer.contents (buffer_ st1) = Buffer.contents (buffer_ st) ++ wire samples /\
    flushCycle build samples up st =
    Ok (tt, set_buffer (write_left up st1 (buffer_ st1)) (write_state up st1),
        write_events up st1 (Buffer.contents (buffer_ st) ++ wire samples)).
Proof.
  intros Hidle Hempty Hfits.
  destruct (flushCycle_eq samples up st Hidle Hempty Hfits)
    as (st1 & Hp & Hc & Hi & Hw & E).
  exists st1. repeat (split; [assumption|]).
  rewrite E, write_eq, Hw. reflexivity.
Qed.

Lemma length_zero_contents (b : Buffer.OwnedImpl) :
  Buffer.length b = 0 -> Buffer.contents b = [].
Proof.
  unfold Buffer.length, size. intros H.
  destruct (Buffer.contents b); [reflexivity | simpl in H; lia].
Qed.

Lemma flushCycle_run (samples : list Sample) up st :
  idle st -> Buffer.length (buffer_ st) = 0 -> Forall fits samples ->
  exists st1,
    parent_ st1 = parent_ st /\ connection_ st1 = connection_ st /\
    idle st1 /\ Buffer.contents (buffer_ st1) = wire samples /\
    flushCycle build samples up st =
    Ok (tt, set_buffer (write_left up st1 (buffer_ st1)) (write_state up st1),
        write_events up st1 (wire samples)).
Proof.
  intros Hidle Hempty Hfits.
  destruct (flushCycle_run_stale samples up st Hidle (or_intror Hempty) Hfits)
    as (st1 & Hp & Hc & Hi & Hw & E).
  rewrite (length_zero_contents _ Hempty) in Hw, E. cbn [app] in Hw, E.
  exists st1. repeat (split; [assumption|]). exact E.
Qed.

(** C1, amended. For every cycle [beginFlush], flushes, [endFlush(true)]
    that starts on an idle sink with an empty buffer (what [beginFlush]
    asserts) and whose names all satisfy [name.size() + 40 <= 16384]: the
    cycle completes, and what it hands to the connection's write is the
    concatenation, in call order, of the lines of its calls, whatever the
    number of slice rotations; it is handed over once when a connection takes
    the write, and nothing is handed over otherwise. *)
Theorem flushCycle_hands_over_wire :
  forall (samples : list Sample) (up : Upstream) (st : TlsSink),
    idle st -> Buffer.length (buffer_ st) = 0 -> Forall fits samples ->
    exists st' evs,
      flushCycle build samples up st = Ok (tt, st', evs) /\
      conn_writes evs = handed up st (wire samples).
Proof.
  intros samples up st Hidle Hempty Hfits.
  destruct (flushCycle_run samples up st Hidle Hempty Hfits)
    as (st1 & _ & Hc & _ & _ & E).
  do 2 eexists. split; [exact E|].
  rewrite conn_writes_write_events. apply handed_connection. exact Hc.
Qed.

(** ** The three outcomes of a cycle *)

(** Over the ceiling: the connection is closed, the batch is discarded and
    the overflow is counted. *)
Lemma flushCycle_over (samples : list Sample) up st :
  idle st -> Buffer.length (buffer_ st) = 0 -> Forall fits samples ->
  over_ceiling up = true ->
  exists st',
    flushCycle build samples up st = Ok (tt, st', close_events st) /\
    idle st' /\ buffer_ st' = [] /\ connection_ st' = connection_ st /\
    overflows st' = N.succ (overflows st).
Proof.
  intros Hidle Hempty Hfits Hover.
  destruct (flushCycle_run samples up st Hidle Hempty Hfits)
    as (st1 & Hp & Hc & Hi & Hw & E).
  exists (set_buffer (write_left up st1 (buffer_ st1)) (write_state up st1)).
  split.
  { rewrite E. unfold write_events, close_events. rewrite Hover, Hc. reflexivity. }
  unfold write_left, write_state, overflows. rewrite Hover.
  cbn [set_buffer inc_cx_overflow_stat set_parent connection_ parent_ buffer_
       cx_overflow_stat_ current_slice_mem_].
  rewrite Hp. repeat split; assumption.
Qed.

(** Under the ceiling with a connection at hand or obtained: the batch is
    handed to it and the buffer is empty again. *)
Lemma flushCycle_taken (samples : list Sample) (c : Connection) up st :
  idle st -> Buffer.length (buffer_ st) = 0 -> Forall fits samples ->
  taker up st = Some c ->
  exists st' evs,
    flushCycle build samples up st = Ok (tt, st', evs) /\
    conn_writes evs = [wire samples] /\
    idle st' /\ buffer_ st' = [] /\ connection_ st' = Some c /\
    overflows st' = overflows st.
Proof.
  intros Hidle Hempty Hfits Htaker.
  destruct (flushCycle_run samples up st Hidle Hempty Hfits)
    as (st1 & Hp & Hc & Hi & Hw & E).
  do 2 eexists. split; [exact E|].
  split.
  { rewrite conn_writes_write_events, (handed_connection up st st1 _ Hc).
    unfold handed. rewrite Htaker. reflexivity. }
  unfold taker in Htaker.
  unfold write_left, write_state, overflows, taker. rewrite Hc.
  destruct (over_ceiling up); [discriminate Htaker|].
  destruct (connection_ st) as [c'|] eqn:Hconn.
  - inversion Htaker; subst c'.
    cbn [set_buffer connection_ parent_ current_slice_mem_ buffer_].
    rewrite Hp, Hc. repeat split; [exact Hi].
  - rewrite Htaker.
    cbn [set_buffer set_connection connection_ parent_ current_slice_mem_ buffer_].
    rewrite Hp. repeat split; [exact Hi].
Qed.

(** Under the ceiling with no connection and none obtainable: the cluster
    manager is asked, nothing else happens, and [write] returns with the
    batch still in the buffer. *)
Lemma flushCycle_unobtainable (samples : list Sample) up st :
  idle st -> Buffer.length (buffer_ st) = 0 -> Forall fits samples ->
  over_ceiling up = false -> connection_ st = None -> tcpConnForCluster up = None ->
  exists st',
    flushCycle build samples up st = Ok (tt, st', [TcpConnForCluster]) /\
    idle st' /\ Buffer.contents (buffer_ st') = wire samples /\
    connection_ st' = None /\ overflows st' = overflows st.
Proof.
  intros Hidle Hempty Hfits Hunder Hconn Hprov.
  destruct (flushCycle_run samples up st Hidle Hempty Hfits)
    as (st1 & Hp & Hc & Hi & Hw & E).
  rewrite Hconn in Hc.
  eexists. split.
  { rewrite E. unfold write_events. rewrite Hunder, Hc, Hprov. reflexivity. }
  unfold write_left, write_state, overflows, taker. rewrite Hunder, Hc, Hprov.
  cbn [set_buffer set_connection connection_ parent_ current_slice_mem_ buffer_].
  rewrite Hp. repeat split; assumption.
Qed.

Lemma fits_test_counter : Forall fits [Counter test_counter 1].
Proof. constructor; [vm_compute; discriminate | constructor]. Qed.

Lemma fits_test_gauge : Forall fits [Gauge test_gauge 2].
Proof. constructor; [vm_compute; discriminate | constructor]. Qed.

(** ** Backpressure *)

Lemma over_ceiling_true up :
  MaxBufferedStatsBytes < upstream_cx_tx_bytes_buffered_ up -> over_ceiling up = true.
Proof. intros H. apply Z.ltb_lt. exact H. Qed.

Lemma over_ceiling_false up :
  upstream_cx_tx_bytes_buffered_ up <= MaxBufferedStatsBytes -> over_ceiling up = false.
Proof. intros H. apply Z.ltb_ge. exact H. Qed.

Lemma onTimespanComplete_eq (name : bytes) (ms : Z) up st :
  onTimespanComplete name ms up st =
  Ok (tt, write_state up st,
      write_events up st (str "envoy." ++ name ++ str ":" ++ fmt_signed ms ++ str "|ms" ++ [LF])).
Proof.
  unfold onTimespanComplete, bind. rewrite write_eq.
  cbn [ret Buffer.contents List.concat]. rewrite !app_nil_r. reflexivity.
Qed.

Lemma taker_offered (c : Connection) up st :
  over_ceiling up = false -> tcpConnForCluster up = Some c ->
  exists c', taker up st = Some c'.
Proof.
  intros Hunder Hprov. unfold taker. rewrite Hunder, Hprov.
  destruct (connection_ st) as [c'|]; eexists; reflexivity.
Qed.

Lemma notified_frame (delivered : bool) st :
  idle (notified delivered st) = idle st /\
  buffer_ (notified delivered st) = buffer_ st /\
  overflows (notified delivered st) = overflows st.
Proof. destruct delivered; repeat split. Qed.

(** C3. For every write attempt at which the shared gauge of buffered
    bytes is over the 16 MiB ceiling.  At [endFlush(true)]: nothing is handed
    to a connection, the only call made is the close without flush of the
    connection the sink holds, if it holds one, the buffer is left empty and
    the overflow counter goes up by exactly one.  At a timer write: the same
    calls and the same count.  Two consecutive cycles over the ceiling leave
    the counter two higher, and a following cycle under the ceiling, with a
    connection on offer, hands its own batch to a connection and counts no
    overflow, whether or not the close notifications have reached the sink
    in between. *)
Theorem over_ceiling_write_attempt :
  forall (up : Upstream) (st : TlsSink),
    MaxBufferedStatsBytes < upstream_cx_tx_bytes_buffered_ up ->
    (forall off, current_slice_mem_ st = Some off ->
       exists st',
         endFlush build true up st = Ok (tt, st', close_events st) /\
         conn_writes (close_events st) = [] /\
         Buffer.length (buffer_ st') = 0 /\
         overflows st' = N.succ (overflows st)) /\
    (forall name ms,
       exists st',
         onTimespanComplete name ms up st = Ok (tt, st', close_events st) /\
         overflows st' = N.succ (overflows st)) /\
    (forall s1 s2 s3 up2 up3 c d1 d2,
       idle st -> Buffer.length (buffer_ st) = 0 ->
       Forall fits s1 -> Forall fits s2 -> Forall fits s3 ->
       MaxBufferedStatsBytes < upstream_cx_tx_bytes_buffered_ up2 ->
       upstream_cx_tx_bytes_buffered_ up3 <= MaxBufferedStatsBytes ->
       tcpConnForCluster up3 = Some c ->
       exists st1 st2 st3 evs3,
         flushCycle build s1 up st = Ok (tt, st1, close_events st) /\
         flushCycle build s2 up2 (notified d1 st1)
         = Ok (tt, st2, close_events (notified d1 st1)) /\
         overflows st2 = (overflows st + 2)%N /\
         flushCycle build s3 up3 (notified d2 st2) = Ok (tt, st3, evs3) /\
         conn_writes evs3 = [wire s3] /\
         overflows st3 = overflows st2).
Proof.
  intros up st Hover.
  pose proof (over_ceiling_true up Hover) as Hoc.
  assert (Hnone : conn_writes (close_events st) = []).
  { unfold close_events. destruct (connection_ st); reflexivity. }
  split; [|split].
  - intros off Hcur.
    rewrite (endFlush_eq true off up st Hcur), write_eq.
    unfold write_left, write_state, write_events. rewrite Hoc.
    eexists. split; [reflexivity|]. split; [exact Hnone|].
    split; reflexivity.
  - intros name ms. rewrite onTimespanComplete_eq.
    unfold write_state, write_events. rewrite Hoc.
    eexists. split; reflexivity.
  - intros s1 s2 s3 up2 up3 c d1 d2 Hidle Hempty F1 F2 F3 Hover2 Hunder3 Hprov3.
    destruct (flushCycle_over s1 up st Hidle Hempty F1 Hoc)
      as (st1 & E1 & Hi1 & Hb1 & Hc1 & Ho1).
    destruct (notified_frame d1 st1) as (Ni1 & Nb1 & No1).
    assert (Hi1' : idle (notified d1 st1)) by (rewrite Ni1; exact Hi1).
    assert (Hempty1 : Buffer.length (buffer_ (notified d1 st1)) = 0)
      by (rewrite Nb1, Hb1; reflexivity).
    destruct (flushCycle_over s2 up2 _ Hi1' Hempty1 F2 (over_ceiling_true up2 Hover2))
      as (st2 & E2 & Hi2 & Hb2 & Hc2 & Ho2).
    destruct (notified_frame d2 st2) as (Ni2 & Nb2 & No2).
    assert (Hi2' : idle (notified d2 st2)) by (rewrite Ni2; exact Hi2).
    assert (Hempty2 : Buffer.length (buffer_ (notified d2 st2)) = 0)
      by (rewrite Nb2, Hb2; reflexivity).
    destruct (taker_offered c up3 (notified d2 st2) (over_ceiling_false up3 Hunder3) Hprov3)
      as (c' & Htaker).
    destruct (flushCycle_taken s3 c' up3 _ Hi2' Hempty2 F3 Htaker)
      as (st3 & evs3 & E3 & Hw3 & _ & _ & _ & Ho3).
    exists st1, st2, st3, evs3.
    split; [exact E1|]. split; [exact E2|]. split; [lia|].
    split; [exact E3|]. split; [exact Hw3 | lia].
Qed.

Lemma BackpressureGuard_over up :
  BackpressureGuard (upstream_cx_tx_bytes_buffered_ up) = over_ceiling up.
Proof. unfold BackpressureGuard, over_ceiling. apply Z.gtb_ltb. Qed.

(** C4. The guard of [write] is the strict comparison of the gauge with
    the ceiling and nothing else.  Whatever the sink has been through, a
    write attempt trips (no write, buffer emptied, overflow counted once)
    exactly when the reading is above the ceiling, and otherwise goes on to
    the connection; a reading of exactly 16 MiB does not trip, any reading
    above does; and over a run of attempts the overflow counter goes up by
    the number of readings above the ceiling, so the guard trips again at
    every reading until one is no longer above it. *)
Theorem guard_is_strict_comparison :
  (forall (buffer : Buffer.OwnedImpl) (up : Upstream) (st : TlsSink),
     exists b' st' evs,
       write buffer up st = Ok (b', st', evs) /\
       if BackpressureGuard (upstream_cx_tx_bytes_buffered_ up)
       then overflows st' = N.succ (overflows st) /\ conn_writes evs = [] /\ b' = []
       else overflows st' = overflows st /\
            conn_writes evs =
              match connection_ st, tcpConnForCluster up with
              | None, None => []
              | _, _ => [Buffer.contents buffer]
              end) /\
  BackpressureGuard MaxBufferedStatsBytes = false /\
  (forall b, MaxBufferedStatsBytes < b -> BackpressureGuard b = true) /\
  (forall b, b <= MaxBufferedStatsBytes -> BackpressureGuard b = false) /\
  (forall (buffer : Buffer.OwnedImpl) (ups : list Upstream) (st : TlsSink),
     exists st',
       write_attempts buffer ups st = Ok st' /\
       overflows st' = (overflows st + N.of_nat (trips ups))%N).
Proof.
  split; [|split; [|split; [|split]]].
  - intros buffer up st. rewrite write_eq. do 3 eexists. split; [reflexivity|].
    rewrite BackpressureGuard_over.
    unfold write_state, write_events, write_left.
    destruct (over_ceiling up).
    + split; [reflexivity|]. split; [|reflexivity].
      destruct (connection_ st); reflexivity.
    + destruct (connection_ st) as [c|]; [split; reflexivity|].
      destruct (tcpConnForCluster up); split; reflexivity.
  - reflexivity.
  - intros b H. unfold BackpressureGuard. rewrite Z.gtb_ltb. apply Z.ltb_lt. exact H.
  - intros b H. unfold BackpressureGuard. rewrite Z.gtb_ltb. apply Z.ltb_ge. exact H.
  - intros buffer ups. induction ups as [|up rest IH]; intros st.
    + exists st. split; [reflexivity|]. unfold trips. simpl. lia.
    + cbn [write_attempts]. rewrite write_eq.
      destruct (IH (write_state up st)) as (st' & E & Ho).
      exists st'. split; [exact E|]. rewrite Ho.
      unfold trips. cbn [filter]. rewrite BackpressureGuard_over.
      unfold write_state, overflows.
      destruct (over_ceiling up).
      * cbn [inc_cx_overflow_stat set_parent parent_ cx_overflow_stat_ List.length].
        lia.
      * destruct (connection_ st); cbn [set_connection parent_]; lia.
Qed.

(** ** The UDP sink *)

(** C5, as stated, fails: the datagram of [flushCounter("test_counter", 1)]
    carries [envoy.test_counter:1|c], 22 bytes, and not the 23 bytes of the
    newline-terminated line. *)
Lemma udp_payload_not_newline_terminated :
  map dgram_payload (UdpStatsdSink.flushCounter udp_sink test_counter 1)
  = [str "envoy.test_counter:1|c"] /\
  map dgram_payload (UdpStatsdSink.flushCounter udp_sink test_counter 1)
  <> [wire_line test_counter 1 "c"%char].
Proof. split; [reflexivity | vm_compute; discriminate]. Qed.

(** C5, amended. For every call [flushCounter], [flushGauge] or
    [onTimespanComplete] of the UDP sink, exactly one datagram is sent on the
    socket of the writer, and its payload is the line
    [envoy.<name>:<value>|<type>] with type [c], [g] or [ms] and without a
    trailing newline: it is the newline-terminated line less its newline,
    and it does not end in one.  A run of calls sends one datagram per call,
    in call order, and [beginFlush] and [endFlush] send nothing. *)
Theorem udp_one_line_per_datagram :
  forall (s : UdpStatsdSink.t),
    (forall c, exists payload,
        udp_call s c = [ {| dgram_fd := Writer.fd_ (UdpStatsdSink.tls_ s);
                            dgram_payload := payload |} ] /\
        payload ++ [LF] = udp_call_line c /\
        forall body, payload <> body ++ [LF]) /\
    (forall calls,
        map (fun d => dgram_payload d ++ [LF]) (flat_map (udp_call s) calls)
        = map udp_call_line calls) /\
    UdpStatsdSink.beginFlush s = [] /\ UdpStatsdSink.endFlush s = [].
Proof.
  intros s.
  assert (Hone : forall c, exists payload,
             udp_call s c = [ {| dgram_fd := Writer.fd_ (UdpStatsdSink.tls_ s);
                                 dgram_payload := payload |} ] /\
             payload ++ [LF] = udp_call_line c /\
             forall body, payload <> body ++ [LF]).
  { intros [name delta | name value | name ms]; eexists;
      (split; [reflexivity|]); (split; [|intros body Hbody]).
    - cbn [udp_call_line]. unfold wire_line, fmt_unsigned.
      repeat rewrite <- app_assoc. reflexivity.
    - change (str "|c") with (["|"%char] ++ ["c"%char]) in Hbody.
      rewrite !app_assoc in Hbody. apply app_inj_tail in Hbody.
      destruct Hbody as [_ Hbody]. discriminate Hbody.
    - cbn [udp_call_line]. unfold wire_line, fmt_unsigned.
      repeat rewrite <- app_assoc. reflexivity.
    - change (str "|g") with (["|"%char] ++ ["g"%char]) in Hbody.
      rewrite !app_assoc in Hbody. apply app_inj_tail in Hbody.
      destruct Hbody as [_ Hbody]. discriminate Hbody.
    - cbn [udp_call_line]. unfold timer_line.
      repeat rewrite <- app_assoc. reflexivity.
    - change (str "|ms") with (["|"%char; "m"%char] ++ ["s"%char]) in Hbody.
      rewrite !app_assoc in Hbody. apply app_inj_tail in Hbody.
      destruct Hbody as [_ Hbody]. discriminate Hbody. }
  split; [exact Hone|]. split; [|split; reflexivity].
  induction calls as [|c rest IH]; [reflexivity|].
  cbn [flat_map]. rewrite map_app, IH.
  destruct (Hone c) as (payload & E & Hline & _). rewrite E.
  cbn [map dgram_payload app]. rewrite Hline. reflexivity.
Qed.

(** ** Histograms *)

(** C6. On the UDP sink and on the TCP sink, for every name and every
    value, [onHistogramComplete(name, value)] does what
    [onTimespanComplete(name, milliseconds(value))] does: the same datagrams
    on the UDP sink; on the TCP sink the same result, the same sink state
    and the same calls on the connection, for every upstream and sink. *)
Theorem histogram_is_timespan :
  forall (name : bytes) (value : Z),
    (forall s : UdpStatsdSink.t,
        UdpStatsdSink.onHistogramComplete s name value
        = UdpStatsdSink.onTimespanComplete s name (milliseconds value)) /\
    (forall (up : Upstream) (st : TlsSink),
        TcpStatsdSink.onHistogramComplete name value up st
        = TcpStatsdSink.onTimespanComplete name (milliseconds value) up st).
Proof. intros name value. split; intros; reflexivity. Qed.

(** ** Close events *)

(** C8. When a close event, remote or local, reaches [onEvent]: the only
    call made is the deferred deletion of the connection (it is not destroyed
    inside its own callback), the sink is left without a connection and is
    otherwise unchanged.  The next [endFlush(true)] then makes no call at all
    when the gauge is over the ceiling, and otherwise first asks the cluster
    manager for a connection and, when it gets one, registers, connects and
    only then writes to it; so does a whole next cycle, with the lines of its
    samples. *)
Theorem close_event_defers_and_reconnects :
  forall (RemoteClose LocalClose events : Z) (up : Upstream) (st : TlsSink),
    Z.land events LocalClose <> 0 \/ Z.land events RemoteClose <> 0 ->
    exists st1,
      onEvent RemoteClose LocalClose events up st
      = Ok (tt, st1, [DeferredDelete (connection_ st)]) /\
      st1 = set_connection None st /\
      (forall off up',
          current_slice_mem_ st1 = Some off ->
          exists st2,
            endFlush build true up' st1
            = Ok (tt, st2,
                  if over_ceiling up' then []
                  else connect_and_write up'
                         (Buffer.contents (buffer_ (committed off st1)))) /\
            (over_ceiling up' = false -> connection_ st2 = tcpConnForCluster up')) /\
      (forall samples up',
          idle st1 -> Buffer.length (buffer_ st1) = 0 -> Forall fits samples ->
          exists st2,
            flushCycle build samples up' st1
            = Ok (tt, st2,
                  if over_ceiling up' then []
                  else connect_and_write up' (wire samples)) /\
            (over_ceiling up' = false -> connection_ st2 = tcpConnForCluster up')).
Proof.
  intros RemoteClose LocalClose events up st Hclose.
  exists (set_connection None st).
  split; [|split; [reflexivity|split]].
  - unfold onEvent.
    assert (Hc : negb (Z.land events LocalClose =? 0)
                 || negb (Z.land events RemoteClose =? 0) = true).
    { apply orb_true_iff. destruct Hclose as [H | H]; [left | right];
        apply negb_true_iff, Z.eqb_neq; exact H. }
    rewrite Hc, bind_gets, bind_modify. reflexivity.
  - intros off up' Hcur.
    rewrite (endFlush_eq true off up' _ Hcur), write_eq.
    unfold write_events, write_state, connect_and_write.
    destruct (over_ceiling up'); eexists; (split; [reflexivity|]).
    + discriminate.
    + reflexivity.
  - intros samples up' Hidle Hempty Hfits.
    destruct (flushCycle_run samples up' _ Hidle Hempty Hfits)
      as (st1 & Hp & Hc & Hi & Hw & E).
    cbn [set_connection connection_] in Hc.
    eexists. split.
    + rewrite E. unfold write_events, connect_and_write. rewrite Hc.
      destruct (over_ceiling up'); reflexivity.
    + intros Hunder. unfold write_state. rewrite Hunder, Hc. reflexivity.
Qed.

(** ** Timers on the TCP sink *)

(** C9. For every [onTimespanComplete(name, ms)] on the TCP sink: the call
    returns, the write attempt it makes is on a buffer of its own that holds
    exactly the line [envoy.<name>:<ms>|ms] and its newline, which is what a
    connection is handed when one takes the write, and the shared buffer, the
    current slice and the cursor of an open cycle are as they were. *)
Theorem timespan_write_is_standalone :
  forall (name : bytes) (ms : Z) (up : Upstream) (st : TlsSink),
    exists st' evs,
      onTimespanComplete name ms up st = Ok (tt, st', evs) /\
      evs = write_events up st (timer_line name ms) /\
      conn_writes evs = handed up st (timer_line name ms) /\
      buffer_ st' = buffer_ st /\
      current_buffer_slice_ st' = current_buffer_slice_ st /\
      current_slice_mem_ st' = current_slice_mem_ st.
Proof.
  intros name ms up st. rewrite onTimespanComplete_eq.
  do 2 eexists. split; [reflexivity|]. split; [reflexivity|].
  split; [apply conn_writes_write_events|].
  unfold write_state.
  destruct (over_ceiling up); [repeat split|].
  destruct (connection_ st); repeat split.
Qed.

(** The timer of the test: five milliseconds on a sink that gets its
    connection. *)
Example timespan_test_timer :
  exists st',
    onTimespanComplete (str "test_timer") 5 (up_ok 7%nat) TlsSink_init
    = Ok (tt, st',
          [TcpConnForCluster; AddConnectionCallbacks 7%nat; SetBufferStats 7%nat;
           Connect 7%nat; ConnWrite 7%nat (str "envoy.test_timer:5|ms" ++ [LF])]).
Proof. eexists. vm_compute. reflexivity. Qed.

End AnyBuild.

(** * Concrete runs *)

Lemma commonFlush_stays_in_slice_witness :
  within_slice (begun TlsSink_init) /\
  size test_counter + 40 <= FlushSliceSizeBytes /\
  exists st',
    commonFlush Debug test_counter 1 "c"%char (up_ok 7%nat) (begun TlsSink_init)
    = Ok (tt, st', []) /\
    within_slice st' /\
    size (wire_line test_counter 1 "c"%char) <= size test_counter + 40.
Proof.
  assert (H1 : within_slice (begun TlsSink_init)).
  { exists 0. split; [reflexivity|]. split; [vm_compute; split; discriminate|].
    split; [vm_compute; reflexivity | vm_compute; reflexivity]. }
  assert (H2 : size test_counter + 40 <= FlushSliceSizeBytes)
    by (vm_compute; discriminate).
  split; [exact H1|]. split; [exact H2|].
  apply (commonFlush_stays_in_slice Debug test_counter 1 "c"%char (up_ok 7%nat)
           (begun TlsSink_init) H1 H2).
Defined.

(** C1, as stated, fails: a cycle that flushes a counter whose name fills a
    whole slice (16384 chars) stores outside the slice it has reserved, in a
    debug build as in a release build, so it does not hand the line of that
    counter to the connection. *)
Lemma flushCycle_long_name_not_transmitted :
  idle TlsSink_init /\ Buffer.length (buffer_ TlsSink_init) = 0 /\
  flushCycle Debug [Counter long_name 1] (up_ok 7%nat) TlsSink_init = Err MemoryFault /\
  flushCycle Release [Counter long_name 1] (up_ok 7%nat) TlsSink_init = Err MemoryFault /\
  ~ (exists st' evs,
        flushCycle Debug [Counter long_name 1] (up_ok 7%nat) TlsSink_init
        = Ok (tt, st', evs) /\
        conn_writes evs = [wire [Counter long_name 1]]).
Proof.
  assert (E : flushCycle Debug [Counter long_name 1] (up_ok 7%nat) TlsSink_init
              = Err MemoryFault) by (vm_compute; reflexivity).
  split; [reflexivity|]. split; [reflexivity|]. split; [exact E|].
  split; [vm_compute; reflexivity|].
  intros (st' & evs & E' & _). rewrite E in E'. discriminate E'.
Qed.

Lemma flushCycle_hands_over_wire_witness :
  idle TlsSink_init /\ Buffer.length (buffer_ TlsSink_init) = 0 /\
  Forall fits (repeat (Counter test_counter 1) 2000) /\
  exists st' evs,
    flushCycle Debug (repeat (Counter test_counter 1) 2000) (up_ok 7%nat) TlsSink_init
    = Ok (tt, st', evs) /\
    conn_writes evs = [wire (repeat (Counter test_counter 1) 2000)].
Proof.
  assert (H1 : idle TlsSink_init) by reflexivity.
  assert (H2 : Buffer.length (buffer_ TlsSink_init) = 0) by reflexivity.
  assert (H3 : Forall fits (repeat (Counter test_counter 1) 2000)).
  { apply Forall_forall. intros s Hs. apply repeat_spec in Hs. subst s.
    vm_compute. discriminate. }
  split; [exact H1|]. split; [exact H2|]. split; [exact H3|].
  apply (flushCycle_hands_over_wire Debug (repeat (Counter test_counter 1) 2000)
           (up_ok 7%nat) TlsSink_init H1 H2 H3).
Defined.

(** C2, at the input where the code departs from it: a cycle that flushes
    one counter while the sink has no connection and the cluster manager
    hands none out returns from [endFlush(true)] with the 23 bytes of the line
    still in the buffer, in a debug build as in a release build; in a debug
    build the [beginFlush] of the next cycle then fails its assertion that
    the buffer is empty. *)
Theorem endFlush_unobtainable_leaves_buffer :
  (exists st',
      flushCycle Debug [Counter test_counter 1] up_unobtainable TlsSink_init
      = Ok (tt, st', [TcpConnForCluster]) /\
      Buffer.length (buffer_ st') = 23 /\
      Buffer.length (buffer_ st') <> 0 /\
      TcpStatsdSink.beginFlush Debug up_unobtainable st' = Err AssertFailure) /\
  (exists st',
      flushCycle Release [Counter test_counter 1] up_unobtainable TlsSink_init
      = Ok (tt, st', [TcpConnForCluster]) /\
      Buffer.length (buffer_ st') = 23 /\
      Buffer.length (buffer_ st') <> 0).
Proof.
  split.
  - destruct (flushCycle_unobtainable Debug [Counter test_counter 1]
                up_unobtainable TlsSink_init)
      as (st' & E & Hi & Hb & Hc & Ho); try reflexivity; [exact fits_test_counter|].
    exists st'. split; [exact E|].
    assert (Hlen : Buffer.length (buffer_ st') = 23).
    { unfold Buffer.length. rewrite Hb. reflexivity. }
    split; [exact Hlen|]. split; [rewrite Hlen; discriminate|].
    apply beginFlush_stale. rewrite Hlen. discriminate.
  - destruct (flushCycle_unobtainable Release [Counter test_counter 1]
                up_unobtainable TlsSink_init)
      as (st' & E & Hi & Hb & Hc & Ho); try reflexivity; [exact fits_test_counter|].
    exists st'. split; [exact E|].
    assert (Hlen : Buffer.length (buffer_ st') = 23).
    { unfold Buffer.length. rewrite Hb. reflexivity. }
    split; [exact Hlen|]. rewrite Hlen. discriminate.
Qed.

(** C7, at the input where the code departs from it: with no connection,
    the gauge under the ceiling and no connection obtainable, the cycle asks
    the cluster manager once, stays without a connection and returns without
    an error, but the batch is not dropped: it stays in the buffer.  In a
    debug build the next cycle, with a connection on offer, stops at the
    assertion of [beginFlush] before it asks for a connection; in a release
    build the next cycle hands the kept batch to the connection ahead of its
    own. *)
Theorem endFlush_unobtainable_keeps_batch :
  (exists st',
      flushCycle Debug [Counter test_counter 1] up_unobtainable TlsSink_init
      = Ok (tt, st', [TcpConnForCluster]) /\
      connection_ st' = None /\
      Buffer.contents (buffer_ st') = wire [Counter test_counter 1] /\
      flushCycle Debug [Gauge test_gauge 2] (up_ok 7%nat) st' = Err AssertFailure) /\
  (exists st' st'',
      flushCycle Release [Counter test_counter 1] up_unobtainable TlsSink_init
      = Ok (tt, st', [TcpConnForCluster]) /\
      connection_ st' = None /\
      Buffer.contents (buffer_ st') = wire [Counter test_counter 1] /\
      flushCycle Release [Gauge test_gauge 2] (up_ok 7%nat) st'
      = Ok (tt, st'',
            connect_and_write (up_ok 7%nat)
              (wire [Counter test_counter 1] ++ wire [Gauge test_gauge 2]))).
Proof.
  split.
  - destruct (flushCycle_unobtainable Debug [Counter test_counter 1]
                up_unobtainable TlsSink_init)
      as (st' & E & Hi & Hb & Hc & Ho); try reflexivity; [exact fits_test_counter|].
    exists st'. split; [exact E|]. split; [exact Hc|]. split; [exact Hb|].
    unfold flushCycle, TcpStatsdSink.beginFlush.
    apply bind_err. apply beginFlush_stale.
    unfold Buffer.length. rewrite Hb. discriminate.
  - destruct (flushCycle_unobtainable Release [Counter test_counter 1]
                up_unobtainable TlsSink_init)
      as (st' & E & Hi & Hb & Hc & Ho); try reflexivity; [exact fits_test_counter|].
    destruct (flushCycle_run_stale Release [Gauge test_gauge 2] (up_ok 7%nat) st'
                Hi (or_introl eq_refl) fits_test_gauge)
      as (st1 & Hp1 & Hc1 & Hi1 & Hw1 & E1).
    rewrite Hc in Hc1. rewrite Hb in E1.
    eexists st', _. split; [exact E|]. split; [exact Hc|]. split; [exact Hb|].
    rewrite E1. unfold write_events, connect_and_write. rewrite Hc1. reflexivity.
Qed.

Lemma over_ceiling_write_attempt_witness :
  MaxBufferedStatsBytes < upstream_cx_tx_bytes_buffered_ up_over /\
  (forall off, current_slice_mem_ TlsSink_init = Some off ->
     exists st',
       endFlush Debug true up_over TlsSink_init = Ok (tt, st', close_events TlsSink_init) /\
       conn_writes (close_events TlsSink_init) = [] /\
       Buffer.length (buffer_ st') = 0 /\
       overflows st' = N.succ (overflows TlsSink_init)) /\
  (forall name ms,
     exists st',
       onTimespanComplete name ms up_over TlsSink_init
       = Ok (tt, st', close_events TlsSink_init) /\
       overflows st' = N.succ (overflows TlsSink_init)) /\
  (forall s1 s2 s3 up2 up3 c d1 d2,
     idle TlsSink_init -> Buffer.length (buffer_ TlsSink_init) = 0 ->
     Forall fits s1 -> Forall fits s2 -> Forall fits s3 ->
     MaxBufferedStatsBytes < upstream_cx_tx_bytes_buffered_ up2 ->
     upstream_cx_tx_bytes_buffered_ up3 <= MaxBufferedStatsBytes ->
     tcpConnForCluster up3 = Some c ->
     exists st1 st2 st3 evs3,
       flushCycle Debug s1 up_over TlsSink_init = Ok (tt, st1, close_events TlsSink_init) /\
       flushCycle Debug s2 up2 (notified d1 st1)
       = Ok (tt, st2, close_events (notified d1 st1)) /\
       overflows st2 = (overflows TlsSink_init + 2)%N /\
       flushCycle Debug s3 up3 (notified d2 st2) = Ok (tt, st3, evs3) /\
       conn_writes evs3 = [wire s3] /\
       overflows st3 = overflows st2).
Proof.
  assert (H : MaxBufferedStatsBytes < upstream_cx_tx_bytes_buffered_ up_over)
    by (vm_compute; reflexivity).
  split; [exact H|].
  apply (over_ceiling_write_attempt Debug up_over TlsSink_init H).
Defined.

Lemma close_event_defers_and_reconnects_witness :
  (Z.land 1 2 <> 0 \/ Z.land 1 1 <> 0) /\
  exists st1,
    onEvent 1 2 1 (up_ok 8%nat) connected_sink
    = Ok (tt, st1, [DeferredDelete (connection_ connected_sink)]) /\
    st1 = set_connection None connected_sink /\
    (forall off up',
        current_slice_mem_ st1 = Some off ->
        exists st2,
          endFlush Debug true up' st1
          = Ok (tt, st2,
                if over_ceiling up' then []
                else connect_and_write up'
                       (Buffer.contents (buffer_ (committed off st1)))) /\
          (over_ceiling up' = false -> connection_ st2 = tcpConnForCluster up')) /\
    (forall samples up',
        idle st1 -> Buffer.length (buffer_ st1) = 0 -> Forall fits samples ->
        exists st2,
          flushCycle Debug samples up' st1
          = Ok (tt, st2,
                if over_ceiling up' then []
                else connect_and_write up' (wire samples)) /\
          (over_ceiling up' = false -> connection_ st2 = tcpConnForCluster up')).
Proof.
  assert (H : Z.land 1 2 <> 0 \/ Z.land 1 1 <> 0) by (right; vm_compute; discriminate).
  split; [exact H|].
  apply (close_event_defers_and_reconnects Debug 1 2 1 (up_ok 8%nat) connected_sink H).
Defined.

(** The first cycle of the test. *)
Example flushCycle_test_all :
  exists st',
    flushCycle Debug [Counter test_counter 1; Gauge test_gauge 2] (up_ok 7%nat) TlsSink_init
    = Ok (tt, st',
          [TcpConnForCluster; AddConnectionCallbacks 7%nat; SetBufferStats 7%nat;
           Connect 7%nat;
           ConnWrite 7%nat (str "envoy.test_counter:1|c" ++ [LF]
                            ++ str "envoy.test_gauge:2|g" ++ [LF])]).
Proof. eexists. vm_compute. reflexivity. Qed.

(** A cycle that rotates: three counters with names of 8000 chars.  The
    third does not fit behind the first two, so their slice is committed as
    the one slice of the buffer and the third opens a fresh slice; the
    connection still gets the three lines in order. *)
Example flushAll_rotates :
  let samples := repeat (Counter (repeat "n"%char (Z.to_nat 8000)) 1) 3 in
  match (beginFlush Debug true ;; flushAll Debug samples)%sink (up_ok 7%nat) TlsSink_init with
  | Ok (_, st, _) =>
      (map size (buffer_ st), current_slice_mem_ st) = ([16022], Some 8011)
  | Err _ => False
  end /\
  exists st' evs,
    flushCycle Debug samples (up_ok 7%nat) TlsSink_init = Ok (tt, st', evs) /\
    conn_writes evs = [wire samples].
Proof.
  split; [vm_compute; reflexivity|].
  destruct (flushCycle_taken Debug
              (repeat (Counter (repeat "n"%char (Z.to_nat 8000)) 1) 3) 7%nat
              (up_ok 7%nat) TlsSink_init)
    as (st' & evs & E & Hw & _); try reflexivity.
  - apply Forall_forall. intros s Hs. apply repeat_spec in Hs. subst s.
    unfold fits, sample_name, size. rewrite repeat_length. vm_compute. discriminate.
  - exists st', evs. split; assumption.
Qed.

(** * Further properties *)

(** ** Calls that stay inside the sink *)

Lemma quiet_ret {A : Type} (a : A) : quiet (ret a).
Proof.
  intros up st a' st' evs H. inversion H; subst. repeat split.
Qed.

Lemma quiet_fail {A : Type} (e : Error) : quiet (@fail A e).
Proof. intros up st a st' evs H. discriminate H. Qed.

Lemma quiet_gets {A : Type} (g : TlsSink -> A) : quiet (gets g).
Proof.
  intros up st a st' evs H. inversion H; subst. repeat split.
Qed.

Lemma quiet_modify (g : TlsSink -> TlsSink) :
  (forall st, connection_ (g st) = connection_ st /\ parent_ (g st) = parent_ st) ->
  quiet (modify g).
Proof.
  intros Hg up st a st' evs H. inversion H; subst.
  destruct (Hg st) as [Hc Hp]. repeat split; assumption.
Qed.

Lemma quiet_bind {A B : Type} (m : M A) (f : A -> M B) :
  quiet m -> (forall a, quiet (f a)) -> quiet (bind m f).
Proof.
  intros Hm Hf up st b st2 evs H. unfold bind in H.
  destruct (m up st) as [[[a st1] out1]|e] eqn:E1; [|discriminate H].
  destruct (f a up st1) as [[[b' st2'] out2]|e] eqn:E2; [|discriminate H].
  inversion H; subst.
  destruct (Hm _ _ _ _ _ E1) as (-> & Hc1 & Hp1).
  destruct (Hf _ _ _ _ _ _ E2) as (-> & Hc2 & Hp2).
  repeat split; congruence.
Qed.

Lemma quiet_set_current_buffer_slice s : quiet (modify (set_current_buffer_slice s)).
Proof. apply quiet_modify. intros st. split; reflexivity. Qed.

Lemma quiet_set_current_slice_mem p : quiet (modify (set_current_slice_mem p)).
Proof. apply quiet_modify. intros st. split; reflexivity. Qed.

Lemma quiet_set_buffer b : quiet (modify (set_buffer b)).
Proof. apply quiet_modify. intros st. split; reflexivity. Qed.

Lemma quiet_store_at dst src : quiet (store_at dst src).
Proof.
  unfold store_at. destruct dst as [off|]; [|apply quiet_fail].
  apply quiet_bind; [apply quiet_gets|]. intros slice.
  destruct (store (Buffer.mem_ slice) off src);
    [apply quiet_set_current_buffer_slice | apply quiet_fail].
Qed.

Lemma quiet_advance n : quiet (advance n).
Proof.
  unfold advance. apply quiet_bind; [apply quiet_gets|]. intros [off|];
    [apply quiet_set_current_slice_mem | apply quiet_fail].
Qed.

Lemma quiet_put c : quiet (put c).
Proof.
  unfold put. apply quiet_bind; [apply quiet_gets|]. intros p.
  apply quiet_bind; [apply quiet_store_at|]. intros _. apply quiet_advance.
Qed.

Lemma quiet_itoa out buffer_size i : quiet (itoa out buffer_size i).
Proof.
  unfold itoa. destruct out as [off|]; [|apply quiet_fail].
  apply quiet_bind; [apply quiet_gets|]. intros slice.
  destruct ((0 <=? off) && (off + buffer_size <=? size (Buffer.mem_ slice)));
    [|apply quiet_fail].
  apply quiet_bind; [apply quiet_store_at|]. intros _. apply quiet_ret.
Qed.

Section AnyRun.

Variable build : Build.
Variables RemoteClose LocalClose : Z.

Lemma quiet_ASSERT c : quiet (ASSERT build c).
Proof.
  unfold ASSERT. destruct build; [|apply quiet_ret].
  destruct c; [apply quiet_ret | apply quiet_fail].
Qed.

Lemma quiet_usedBuffer : quiet (usedBuffer build).
Proof.
  unfold usedBuffer. apply quiet_bind; [apply quiet_gets|]. intros p.
  apply quiet_bind; [apply quiet_ASSERT|]. intros _.
  destruct p; [apply quiet_ret | apply quiet_fail].
Qed.

Lemma quiet_beginFlush expect_empty_buffer : quiet (beginFlush build expect_empty_buffer).
Proof.
  unfold beginFlush.
  apply quiet_bind; [apply quiet_gets|]. intros b.
  apply quiet_bind; [apply quiet_ASSERT|]. intros _.
  apply quiet_bind; [apply quiet_gets|]. intros p.
  apply quiet_bind; [apply quiet_ASSERT|]. intros _.
  cbn [Buffer.reserve].
  apply quiet_bind; [apply quiet_set_current_buffer_slice|]. intros _.
  apply quiet_bind; [apply quiet_ASSERT|]. intros _.
  apply quiet_bind; [apply quiet_ASSERT|]. intros _.
  apply quiet_set_current_slice_mem.
Qed.

Lemma quiet_endFlush_false : quiet (endFlush build false).
Proof.
  unfold endFlush.
  apply quiet_bind; [apply quiet_gets|]. intros p.
  apply quiet_bind; [apply quiet_ASSERT|]. intros _.
  apply quiet_bind; [apply quiet_usedBuffer|]. intros used.
  apply quiet_bind; [apply quiet_gets|]. intros slice.
  apply quiet_bind; [apply quiet_set_current_buffer_slice|]. intros _.
  apply quiet_bind; [apply quiet_gets|]. intros slice'.
  apply quiet_bind; [apply quiet_gets|]. intros b.
  apply quiet_bind; [apply quiet_set_buffer|]. intros _.
  apply quiet_bind; [apply quiet_set_current_slice_mem|]. intros _.
  apply quiet_ret.
Qed.

Lemma quiet_commonFlush name value stat_type : quiet (commonFlush build name value stat_type).
Proof.
  unfold commonFlush.
  apply quiet_bind; [apply quiet_gets|]. intros p.
  apply quiet_bind; [apply quiet_ASSERT|]. intros _.
  apply quiet_bind; [apply quiet_gets|]. intros slice.
  apply quiet_bind; [apply quiet_usedBuffer|]. intros used.
  apply quiet_bind.
  { destruct (wrap64 (Buffer.len_ slice - used) <? wrap64 (size name + 40));
      [|apply quiet_ret].
    apply quiet_bind; [apply quiet_endFlush_false|]. intros _. apply quiet_beginFlush. }
  intros _.
  apply quiet_bind; [apply quiet_gets|]. intros p1.
  apply quiet_bind; [apply quiet_store_at|]. intros _.
  apply quiet_bind; [apply quiet_advance|]. intros _.
  apply quiet_bind; [apply quiet_gets|]. intros p2.
  apply quiet_bind; [apply quiet_store_at|]. intros _.
  apply quiet_bind; [apply quiet_advance|]. intros _.
  apply quiet_bind; [apply quiet_put|]. intros _.
  apply quiet_bind; [apply quiet_gets|]. intros p3.
  apply quiet_bind; [apply quiet_itoa|]. intros n.
  apply quiet_bind; [apply quiet_advance|]. intros _.
  apply quiet_bind; [apply quiet_put|]. intros _.
  apply quiet_bind; [apply quiet_put|]. intros _.
  apply quiet_put.
Qed.

(** ** Calls outside an open cycle *)

Lemma usedBuffer_idle up st :
  idle st -> usedBuffer build up st = Err (outside_cycle_error build).
Proof.
  intros H. unfold usedBuffer. rewrite bind_gets, H.
  destruct build; [reflexivity|].
  rewrite bind_ASSERT by (left; reflexivity). reflexivity.
Qed.

Lemma endFlush_idle (do_write : bool) up st :
  idle st -> endFlush build do_write up st = Err (outside_cycle_error build).
Proof.
  intros H. pose proof (usedBuffer_idle up st H) as Hu.
  unfold endFlush. rewrite bind_gets, H.
  destruct build; [reflexivity|].
  rewrite bind_ASSERT by (left; reflexivity).
  apply bind_err. exact Hu.
Qed.

Lemma commonFlush_idle name value stat_type up st :
  idle st ->
  commonFlush build name value stat_type up st = Err (outside_cycle_error build).
Proof.
  intros H. pose proof (usedBuffer_idle up st H) as Hu.
  unfold commonFlush. rewrite bind_gets, H.
  destruct build; [reflexivity|].
  rewrite bind_ASSERT by (left; reflexivity).
  rewrite bind_gets. apply bind_err. exact Hu.
Qed.

(** ** One call of a run *)

Lemma write_events_connection up st1 st2 data :
  connection_ st1 = connection_ st2 ->
  write_events up st1 data = write_events up st2 data.
Proof. intros H. unfold write_events. rewrite H. reflexivity. Qed.

Lemma write_state_connection up st1 st2 :
  connection_ st1 = connection_ st2 -> parent_ st1 = parent_ st2 ->
  connection_ (write_state up st1) = connection_ (write_state up st2) /\
  parent_ (write_state up st1) = parent_ (write_state up st2).
Proof.
  intros Hc Hp. unfold write_state. rewrite Hc.
  destruct (over_ceiling up).
  - cbn [inc_cx_overflow_stat set_parent connection_ parent_]. rewrite Hc, Hp.
    split; reflexivity.
  - destruct (connection_ st2) eqn:E; [split; congruence|].
    cbn [set_connection connection_ parent_]. split; [reflexivity | exact Hp].
Qed.

Lemma endFlush_true_attempted up st a st' evs :
  endFlush build true up st = Ok (a, st', evs) -> attempted up st st' evs.
Proof.
  intros H. destruct (current_slice_mem_ st) as [off|] eqn:Hcur.
  - rewrite (endFlush_eq build true off up st Hcur), write_eq in H.
    inversion H; subst. clear H.
    destruct (write_state_connection up (committed off st) st) as [Hc Hp];
      [reflexivity | reflexivity |].
    split; [|split].
    + eexists. apply write_events_connection. reflexivity.
    + exact Hc.
    + exact Hp.
  - rewrite (endFlush_idle true up st Hcur) in H. discriminate H.
Qed.

Lemma onTimespanComplete_attempted name ms up st a st' evs :
  onTimespanComplete name ms up st = Ok (a, st', evs) -> attempted up st st' evs.
Proof.
  rewrite onTimespanComplete_eq. intros H. inversion H; subst.
  split; [eexists; reflexivity | split; reflexivity].
Qed.

(** What a call of a run can do: stay inside the sink, make a write
    attempt, or take a connection event. *)
Lemma run_op_cases (op : Op) up st a st' evs :
  run_op build RemoteClose LocalClose op up st = Ok (a, st', evs) ->
  match op with
  | OpBeginFlush | OpFlushCounter _ _ | OpFlushGauge _ _ =>
      evs = [] /\ connection_ st' = connection_ st /\ parent_ st' = parent_ st
  | OpEndFlush | OpHistogramComplete _ _ | OpTimespanComplete _ _ =>
      attempted up st st' evs
  | OpEvent events =>
      parent_ st' = parent_ st /\
      ((evs = [DeferredDelete (connection_ st)] /\ connection_ st' = None) \/
       (evs = [] /\ connection_ st' = connection_ st))
  end.
Proof.
  destruct op as [| name delta | name value | | name value | name ms | events];
    cbn [run_op]; intros H.
  - apply (quiet_beginFlush true _ _ _ _ _ H).
  - apply (quiet_commonFlush name delta "c"%char _ _ _ _ _ H).
  - apply (quiet_commonFlush name value "g"%char _ _ _ _ _ H).
  - apply (endFlush_true_attempted _ _ _ _ _ H).
  - apply (onTimespanComplete_attempted _ _ _ _ _ _ _ H).
  - apply (onTimespanComplete_attempted _ _ _ _ _ _ _ H).
  - unfold onEvent in H.
    destruct (negb (Z.land events LocalClose =? 0)
              || negb (Z.land events RemoteClose =? 0)).
    + rewrite bind_gets, bind_modify in H. inversion H; subst.
      split; [reflexivity|]. left. split; reflexivity.
    + inversion H; subst. split; [reflexivity|]. right. split; reflexivity.
Qed.

(** ** The life of a connection over a run *)

Lemma follows_app (p : Phase) (evs1 evs2 : list Event) :
  follows p (evs1 ++ evs2) =
  match follows p evs1 with
  | Some p' => follows p' evs2
  | None => None
  end.
Proof.
  revert p. induction evs1 as [|e rest IH]; intros p; cbn [follows app].
  - reflexivity.
  - destruct (follow p e); [apply IH | reflexivity].
Qed.

Lemma follows_write up st data :
  follows (phase_of st) (write_events up st data) = Some (phase_of (write_state up st)).
Proof.
  unfold write_events, write_state, phase_of.
  destruct (over_ceiling up).
  - cbn [inc_cx_overflow_stat set_parent connection_].
    destruct (connection_ st) as [c|]; cbn [follows follow];
      [rewrite Nat.eqb_refl|]; reflexivity.
  - destruct (connection_ st) as [c|] eqn:Hc.
    + rewrite Hc. cbn [follows follow]. rewrite Nat.eqb_refl. reflexivity.
    + cbn [set_connection connection_].
      destruct (tcpConnForCluster up) as [c|]; cbn [follows follow];
        [rewrite !Nat.eqb_refl|]; reflexivity.
Qed.

Lemma follows_attempted up st st' evs :
  attempted up st st' evs -> follows (phase_of st) evs = Some (phase_of st').
Proof.
  intros ((data & ->) & Hc & _). rewrite follows_write.
  unfold phase_of. rewrite Hc. reflexivity.
Qed.

Lemma run_op_follows (op : Op) up st a st' evs :
  run_op build RemoteClose LocalClose op up st = Ok (a, st', evs) ->
  follows (phase_of st) evs = Some (phase_of st').
Proof.
  intros H. apply run_op_cases in H.
  destruct op; try apply (follows_attempted _ _ _ _ H).
  1-3: destruct H as (-> & Hc & _); unfold phase_of; rewrite Hc; reflexivity.
  destruct H as (_ & [(-> & Hc) | (-> & Hc)]); unfold phase_of; rewrite Hc.
  - destruct (connection_ st) as [c|]; cbn [follows follow];
      [rewrite Nat.eqb_refl|]; reflexivity.
  - reflexivity.
Qed.

Lemma run_ops_follows (ops : list (Upstream * Op)) : forall st st' evs,
  run_ops build RemoteClose LocalClose ops st = Ok (st', evs) ->
  follows (phase_of st) evs = Some (phase_of st').
Proof.
  induction ops as [|[up op] rest IH]; intros st st' evs H; cbn [run_ops] in H.
  - inversion H; subst. reflexivity.
  - destruct (run_op build RemoteClose LocalClose op up st)
      as [[[a st1] out1]|e] eqn:E1; [|discriminate H].
    destruct (run_ops build RemoteClose LocalClose rest st1)
      as [[st2 out2]|e] eqn:E2; [|discriminate H].
    inversion H; subst.
    rewrite follows_app, (run_op_follows _ _ _ _ _ _ E1). apply (IH _ _ _ E2).
Qed.

Lemma follows_accounts (evs : list Event) : forall p p',
  follows p evs = Some p' ->
  phase_held p ++ obtained evs = released evs ++ phase_held p'.
Proof.
  induction evs as [|e rest IH]; intros p p' H; cbn [follows] in H.
  - inversion H; subst. cbn [obtained released app]. apply app_nil_r.
  - destruct (follow p e) as [p1|] eqn:E; [|discriminate H].
    specialize (IH _ _ H).
    destruct e as [| c | c | c | c data | c [|] | [c|]]; destruct p as [| c' | c'];
      cbn [follow] in E; try discriminate E;
      try (destruct (Nat.eqb c c') eqn:Ec; [apply Nat.eqb_eq in Ec; subst c'|discriminate E]);
      inversion E; subst p1; cbn [obtained released phase_held app] in *;
      try exact IH.
    rewrite <- IH. reflexivity.
Qed.

Lemma phase_held_of st : phase_held (phase_of st) = held st.
Proof. unfold phase_of, held. destruct (connection_ st); reflexivity. Qed.

Lemma TlsSink_destructor_eq up st :
  TlsSink_destructor up st = Ok (tt, st, map (fun c => Close c NoFlush) (held st)).
Proof.
  unfold TlsSink_destructor, held. rewrite bind_gets.
  destruct (connection_ st); reflexivity.
Qed.


(** X2. No connection is lost or held twice: over every run that returns,
    the connections the sink held or obtained are, in order, the ones it has
    handed to deferred deletion followed by the one it still holds, and the
    teardown of the thread closes exactly that one. *)
Theorem run_accounts_for_connections :
  forall (ops : list (Upstream * Op)) (st st' : TlsSink) (evs : list Event),
    run_ops build RemoteClose LocalClose ops st = Ok (st', evs) ->
    held st ++ obtained evs = released evs ++ held st' /\
    (List.length (held st') <= 1)%nat /\
    forall up,
      TlsSink_destructor up st'
      = Ok (tt, st', map (fun c => Close c NoFlush) (held st')).
Proof.
  intros ops st st' evs H.
  pose proof (follows_accounts _ _ _ (run_ops_follows ops st st' evs H)) as Ha.
  rewrite !phase_held_of in Ha.
  split; [exact Ha|]. split.
  - unfold held. destruct (connection_ st'); cbn; lia.
  - intros up. apply TlsSink_destructor_eq.
Qed.

(** ** The overflow counter over a run *)

Lemma attempted_overflows up st st' evs :
  attempted up st st' evs ->
  overflows st' = (overflows st + (if over_ceiling up then 1 else 0))%N.
Proof.
  intros (_ & _ & Hp). unfold overflows. rewrite Hp. unfold write_state.
  destruct (over_ceiling up).
  - cbn [inc_cx_overflow_stat set_parent parent_ cx_overflow_stat_]. lia.
  - destruct (connection_ st); cbn [set_connection parent_]; lia.
Qed.

Lemma run_op_overflows (op : Op) up st a st' evs :
  run_op build RemoteClose LocalClose op up st = Ok (a, st', evs) ->
  overflows st' =
  (overflows st + (if write_attempt op && over_ceiling up then 1 else 0))%N.
Proof.
  intros H. apply run_op_cases in H.
  destruct op; cbn [write_attempt andb];
    try (apply (attempted_overflows _ _ _ _ H)).
  1-3: destruct H as (_ & _ & Hp); unfold overflows; rewrite Hp; lia.
  destruct H as (Hp & _). unfold overflows. rewrite Hp. lia.
Qed.

(** X3. The overflow counter counts the write attempts dropped for
    backpressure and nothing else: over every run that returns it has gone
    up by the number of calls [endFlush], [onTimespanComplete] and
    [onHistogramComplete] made while the gauge was over the ceiling; no other
    call and no connection event changes it, and it never goes down. *)
Theorem run_counts_overflows :
  forall (ops : list (Upstream * Op)) (st st' : TlsSink) (evs : list Event),
    run_ops build RemoteClose LocalClose ops st = Ok (st', evs) ->
    overflows st' = (overflows st + N.of_nat (over_ceiling_attempts ops))%N.
Proof.
  induction ops as [|[up op] rest IH]; intros st st' evs H; cbn [run_ops] in H.
  - inversion H; subst. unfold over_ceiling_attempts. cbn. lia.
  - destruct (run_op build RemoteClose LocalClose op up st)
      as [[[a st1] out1]|e] eqn:E1; [|discriminate H].
    destruct (run_ops build RemoteClose LocalClose rest st1)
      as [[st2 out2]|e] eqn:E2; [|discriminate H].
    inversion H; subst.
    rewrite (IH _ _ _ E2), (run_op_overflows _ _ _ _ _ _ E1).
    unfold over_ceiling_attempts. cbn [filter fst snd].
    destruct (write_attempt op && over_ceiling up); cbn [List.length]; lia.
Qed.

(** ** A cycle without samples *)

(** X5. A flush cycle with nothing to flush still ends in a write attempt:
    on an idle sink with an empty buffer, [beginFlush] followed at once by
    [endFlush] closes the connection and counts an overflow when the gauge is
    over the ceiling, and otherwise hands zero bytes to the connection it
    holds, or asks the cluster manager for one, connects it and hands it zero
    bytes. *)
Theorem empty_cycle_still_attempts :
  forall (up : Upstream) (st : TlsSink),
    idle st -> Buffer.length (buffer_ st) = 0 ->
    exists st',
      flushCycle build [] up st
      = Ok (tt, st',
            if over_ceiling up then close_events st
            else match connection_ st with
                 | Some c => [ConnWrite c []]
                 | None => connect_and_write up []
                 end) /\
      idle st' /\ Buffer.length (buffer_ st') = 0 /\
      overflows st' = (overflows st + (if over_ceiling up then 1 else 0))%N.
Proof.
  intros up st Hidle Hempty.
  destruct (flushCycle_run build [] up st Hidle Hempty (Forall_nil _))
    as (st1 & Hp & Hc & Hi & Hw & E).
  eexists. split; [|split; [|split]].
  - rewrite E. unfold write_events, close_events, connect_and_write, wire.
    rewrite Hc. cbn [map List.concat]. reflexivity.
  - unfold write_state. destruct (over_ceiling up); [exact Hi|].
    destruct (connection_ st1); exact Hi.
  - cbn [set_buffer buffer_]. unfold write_left, taker.
    destruct (over_ceiling up); [reflexivity|].
    destruct (connection_ st1); [reflexivity|].
    destruct (tcpConnForCluster up); [reflexivity|].
    unfold Buffer.length. rewrite Hw. reflexivity.
  - unfold overflows, write_state. cbn [set_buffer parent_].
    destruct (over_ceiling up).
    + cbn [inc_cx_overflow_stat set_parent parent_ cx_overflow_stat_]. rewrite Hp. lia.
    + destruct (connection_ st1); cbn [set_connection parent_]; rewrite Hp; lia.
Qed.

(** ** Lines and slices *)

Lemma wire_app (s1 s2 : list Sample) : wire (s1 ++ s2) = wire s1 ++ wire s2.
Proof. unfold wire. rewrite map_app, concat_app. reflexivity. Qed.

Lemma wire_one (s : Sample) : wire [s] = sample_line s.
Proof. unfold wire. cbn [map List.concat]. apply app_nil_r. Qed.




(** ** Cycles as runs of calls *)

Local Abbreviation run := (run_ops build RemoteClose LocalClose).

(** A call that stays silent hands the run over to the rest. *)
Lemma run_silent (op : Op) up st st1 (rest : list (Upstream * Op)) :
  run_op build RemoteClose LocalClose op up st = Ok (tt, st1, []) ->
  run ((up, op) :: rest) st = run rest st1.
Proof.
  intros E. cbn [run_ops]. rewrite E.
  destruct (run rest st1) as [[st2 out2]|e]; reflexivity.
Qed.

Lemma run_flush_ops p0 c0 (samples : list Sample) : forall flushed up st,
  cycle_open p0 c0 flushed st -> Forall fits samples ->
  exists st', cycle_open p0 c0 (flushed ++ wire samples) st' /\
    forall rest, run (flush_ops up samples ++ rest) st = run rest st'.
Proof.
  induction samples as [|s more IH]; intros flushed up st Hopen Hfits.
  - exists st. split; [|reflexivity].
    unfold wire. cbn [map List.concat]. rewrite app_nil_r. exact Hopen.
  - inversion Hfits as [|? ? Hs Hmore]; subst.
    destruct (flushSample_cycle build _ _ _ s up _ Hopen Hs) as (st1 & E1 & Hopen1).
    destruct (IH _ up _ Hopen1 Hmore) as (st2 & Hopen2 & Hrun).
    exists st2. split.
    + change (s :: more) with ([s] ++ more).
      rewrite wire_app, wire_one, app_assoc. exact Hopen2.
    + intros rest. cbn [flush_ops map app].
      rewrite (run_silent (flush_op s) up st st1); [apply Hrun|].
      destruct s; exact E1.
Qed.

Lemma cycle_open_begun st :
  Buffer.length (buffer_ st) = 0 ->
  cycle_open (parent_ st) (connection_ st) [] (begun st).
Proof.
  intros Hempty. exists (buffer_ st), FlushSliceSizeBytes, [].
  split; [apply begun_open|]. split; [reflexivity|].
  rewrite app_nil_r. apply length_zero_contents. exact Hempty.
Qed.

(** The end of an open cycle: the write attempt on what the cycle has
    gathered. *)
Lemma endFlush_cycle p0 c0 flushed up st :
  cycle_open p0 c0 flushed st ->
  exists st',
    endFlush build true up st = Ok (tt, st', write_events up st flushed) /\
    idle st' /\
    connection_ st' = connection_ (write_state up st) /\
    parent_ st' = parent_ (write_state up st) /\
    (taker up st <> None \/ over_ceiling up = true -> buffer_ st' = []).
Proof.
  intros (B & L & pre & Hopen & HL & HY).
  destruct (committed_open _ _ _ _ _ _ Hopen HL) as (Cp & Cc & Cb & Ccur).
  destruct Hopen as (Hp & Hc & _ & Hcur & _).
  assert (Hcs : connection_ (committed (size pre) st) = connection_ st) by congruence.
  assert (Hps : parent_ (committed (size pre) st) = parent_ st) by congruence.
  destruct (write_state_connection up _ _ Hcs Hps) as [Wc Wp].
  eexists. split; [|split; [|split; [|split]]].
  - rewrite (endFlush_eq build true _ up st Hcur), write_eq.
    rewrite Cb, contents_snoc, HY, (write_events_connection up _ st _ Hcs).
    reflexivity.
  - unfold write_state. destruct (over_ceiling up); [exact Ccur|].
    destruct (connection_ (committed (size pre) st)); exact Ccur.
  - exact Wc.
  - exact Wp.
  - intros Htaken. cbn [set_buffer buffer_]. unfold write_left, taker in *.
    rewrite Hcs. destruct (over_ceiling up); [reflexivity|].
    destruct (connection_ st); [reflexivity|].
    destruct (tcpConnForCluster up); [reflexivity|].
    destruct Htaken as [H | H]; [contradiction H; reflexivity | discriminate H].
Qed.

Lemma run_end_flush p0 c0 flushed up st :
  cycle_open p0 c0 flushed st ->
  exists st',
    idle st' /\
    connection_ st' = connection_ (write_state up st) /\
    parent_ st' = parent_ (write_state up st) /\
    (taker up st <> None \/ over_ceiling up = true -> buffer_ st' = []) /\
    forall rest,
      run ((up, OpEndFlush) :: rest) st =
      match run rest st' with
      | Ok (st2, out2) => Ok (st2, write_events up st flushed ++ out2)
      | Err e => Err e
      end.
Proof.
  intros Hopen.
  destruct (endFlush_cycle _ _ _ up _ Hopen) as (st' & E & Hi & Hc & Hp & Hb).
  exists st'. repeat (split; [assumption|]).
  intros rest. cbn [run_ops run_op]. unfold TcpStatsdSink.endFlush. rewrite E.
  reflexivity.
Qed.

Lemma run_begin_flush up st (rest : list (Upstream * Op)) :
  idle st -> build = Release \/ Buffer.length (buffer_ st) = 0 ->
  run ((up, OpBeginFlush) :: rest) st = run rest (begun st).
Proof.
  intros Hidle Hempty. apply run_silent. cbn [run_op].
  apply beginFlush_eq; [exact Hidle|].
  destruct Hempty as [H | H]; [left; exact H | right; right; exact H].
Qed.

(** A whole cycle inside a run. *)
Lemma run_cycle_ops (samples : list Sample) up st :
  idle st -> Buffer.length (buffer_ st) = 0 -> Forall fits samples ->
  exists st',
    idle st' /\
    connection_ st' = connection_ (write_state up st) /\
    parent_ st' = parent_ (write_state up st) /\
    (taker up st <> None \/ over_ceiling up = true -> buffer_ st' = []) /\
    forall rest,
      run (cycle_ops up samples ++ rest) st =
      match run rest st' with
      | Ok (st2, out2) => Ok (st2, write_events up st (wire samples) ++ out2)
      | Err e => Err e
      end.
Proof.
  intros Hidle Hempty Hfits.
  destruct (run_flush_ops _ _ samples _ up _ (cycle_open_begun st Hempty) Hfits)
    as (st1 & Hopen1 & Hrun1).
  destruct (run_end_flush _ _ _ up _ Hopen1) as (st' & Hi & Hc & Hp & Hb & Hrun2).
  destruct Hopen1 as (B & L & pre & (Hp1 & Hc1 & _) & _).
  destruct (write_state_connection up st1 st Hc1 Hp1) as [Wc Wp].
  exists st'. split; [exact Hi|]. split; [congruence|]. split; [congruence|]. split.
  - intros H. apply Hb. unfold taker in *. rewrite Hc1. exact H.
  - intros rest. unfold cycle_ops. cbn [app].
    rewrite (run_begin_flush up st _ Hidle (or_intror Hempty)).
    rewrite <- app_assoc, Hrun1. cbn [app]. rewrite Hrun2.
    rewrite (write_events_connection up st1 st _ Hc1). reflexivity.
Qed.

(** X7. A connection, once held, is reused: over any number of flush
    cycles under the ceiling on a sink that holds a connection, the cluster
    manager is never asked again and nothing is closed; the only calls are
    one write per cycle to that connection, each with the lines of its cycle,
    so the bytes the connection receives are the lines of all the samples in
    call order, with nothing between the cycles. *)
Theorem cycles_reuse_connection :
  forall (batches : list (Upstream * list Sample)) (c : Connection) (st : TlsSink),
    connection_ st = Some c -> idle st -> Buffer.length (buffer_ st) = 0 ->
    Forall (fun b => over_ceiling (fst b) = false /\ Forall fits (snd b)) batches ->
    exists st',
      run (cycles_ops batches) st
      = Ok (st', map (fun b => ConnWrite c (wire (snd b))) batches) /\
      connection_ st' = Some c /\ idle st' /\
      Buffer.length (buffer_ st') = 0 /\ overflows st' = overflows st /\
      List.concat (map (fun b => wire (snd b)) batches)
      = wire (List.concat (map snd batches)).
Proof.
  induction batches as [|[up samples] more IH]; intros c st Hc Hidle Hempty Hall.
  - exists st. repeat (split; [first [reflexivity | assumption]|]). reflexivity.
  - inversion Hall as [|? ? [Hunder Hfits] Hmore]; subst. cbn [fst snd] in *.
    destruct (run_cycle_ops samples up st Hidle Hempty Hfits)
      as (st1 & Hi1 & Hc1 & Hp1 & Hb1 & Hrun).
    assert (Hws : write_state up st = st).
    { unfold write_state. rewrite Hunder, Hc. reflexivity. }
    rewrite Hws in Hc1, Hp1.
    assert (Hempty1 : Buffer.length (buffer_ st1) = 0).
    { rewrite Hb1; [reflexivity|]. left. unfold taker. rewrite Hunder, Hc. discriminate. }
    destruct (IH c st1 (eq_trans Hc1 Hc) Hi1 Hempty1 Hmore)
      as (st' & E & Hc' & Hi' & Hb' & Ho' & Hcat).
    exists st'. unfold cycles_ops in *. cbn [map List.concat fst snd].
    rewrite Hrun, E. unfold write_events. rewrite Hunder, Hc. cbn [app].
    split; [reflexivity|]. repeat (split; [assumption|]). split.
    + rewrite Ho'. unfold overflows. rewrite Hp1. reflexivity.
    + rewrite Hcat. symmetry. apply wire_app.
Qed.

Lemma cycle_open_write_state p0 c0 flushed up st :
  cycle_open p0 c0 flushed st ->
  cycle_open (parent_ (write_state up st)) (connection_ (write_state up st))
    flushed (write_state up st).
Proof.
  intros (B & L & pre & (Hp & Hc & HB & Hcur & Hlen & Hsz & Hpre) & HL & HY).
  exists B, L, pre. split; [|split; assumption].
  unfold open_slice, write_state.
  destruct (over_ceiling up); [repeat split; assumption|].
  destruct (connection_ st); repeat split; assumption.
Qed.

(** X8. A timer that completes while a flush cycle is open does not touch
    the batch: its line is written at once, ahead of the lines flushed before
    it, and the [endFlush] of the cycle still hands over the lines of all the
    samples of the cycle, those flushed before the timer and those flushed
    after, in one piece and in call order.  Each of the two write attempts
    takes the path its own upstream reading gives it. *)
Theorem timer_inside_cycle :
  forall (before after : list Sample) (name : bytes) (ms : Z)
         (up upt : Upstream) (st : TlsSink),
    idle st -> Buffer.length (buffer_ st) = 0 ->
    Forall fits before -> Forall fits after ->
    exists st',
      run (cycle_with_timer_ops up upt before after name ms) st
      = Ok (st', write_events upt st (timer_line name ms)
                 ++ write_events up (write_state upt st) (wire (before ++ after))) /\
      conn_writes (write_events upt st (timer_line name ms)
                   ++ write_events up (write_state upt st) (wire (before ++ after)))
      = handed upt st (timer_line name ms)
        ++ handed up (write_state upt st) (wire (before ++ after)).
Proof.
  intros before after name ms up upt st Hidle Hempty Hb Ha.
  destruct (run_flush_ops _ _ before _ up _ (cycle_open_begun st Hempty) Hb)
    as (st1 & Hopen1 & Hrun1).
  pose proof (cycle_open_write_state _ _ _ upt _ Hopen1) as Hopen2.
  destruct (run_flush_ops _ _ after _ up _ Hopen2 Ha) as (st3 & Hopen3 & Hrun3).
  destruct (endFlush_cycle _ _ _ up _ Hopen3) as (st' & E & _).
  assert (Hc1 : connection_ st1 = connection_ st /\ parent_ st1 = parent_ st).
  { destruct Hopen1 as (? & ? & ? & (Hp & Hc & _) & _). split; assumption. }
  destruct Hc1 as [Hc1 Hp1].
  assert (Hc3 : connection_ st3 = connection_ (write_state upt st)).
  { destruct Hopen3 as (? & ? & ? & (_ & Hc & _) & _). rewrite Hc.
    apply (write_state_connection upt st1 st Hc1 Hp1). }
  exists st'. split.
  - unfold cycle_with_timer_ops.
    rewrite (run_begin_flush up st _ Hidle (or_intror Hempty)), Hrun1.
    cbn [run_ops run_op]. unfold TcpStatsdSink.onTimespanComplete.
    rewrite onTimespanComplete_eq, Hrun3.
    cbn [run_ops run_op]. unfold TcpStatsdSink.endFlush. rewrite E.
    cbn [app]. rewrite app_nil_r.
    rewrite (write_events_connection upt st1 st _ Hc1).
    rewrite (write_events_connection up st3 (write_state upt st) _ Hc3).
    cbn [app]. rewrite wire_app. reflexivity.
  - unfold conn_writes. fold conn_writes.
    assert (Happ : forall e1 e2, conn_writes (e1 ++ e2) = conn_writes e1 ++ conn_writes e2).
    { induction e1 as [|e r IHr]; intros e2; [reflexivity|].
      destruct e; cbn [conn_writes app]; rewrite ?IHr; reflexivity. }
    rewrite Happ, !conn_writes_write_events. reflexivity.
Qed.

End AnyRun.

(** ** The discipline of the cycle *)

Lemma bind_ok_inv {A B : Type} (m : M A) (f : A -> M B) up st b st' evs :
  bind m f up st = Ok (b, st', evs) ->
  exists a st1 evs1 evs2,
    m up st = Ok (a, st1, evs1) /\ f a up st1 = Ok (b, st', evs2) /\
    evs = evs1 ++ evs2.
Proof.
  unfold bind. intros H.
  destruct (m up st) as [[[a st1] evs1]|e]; [|discriminate H].
  destruct (f a up st1) as [[[b' st2] evs2]|e] eqn:E; [|discriminate H].
  inversion H; subst. exists a, st1, evs1, evs2.
  split; [reflexivity|]. split; [exact E | reflexivity].
Qed.

Lemma ends_open_bind {A B : Type} (m : M A) (f : A -> M B) :
  (forall a, ends_open (f a)) -> ends_open (bind m f).
Proof.
  intros Hf up st b st' evs H.
  apply bind_ok_inv in H. destruct H as (a & st1 & evs1 & evs2 & _ & H & _).
  exact (Hf a up st1 b st' evs2 H).
Qed.

Lemma ends_open_advance (n : Z) : ends_open (advance n).
Proof.
  intros up st a st' evs H. unfold advance in H. rewrite bind_gets in H.
  destruct (current_slice_mem_ st); [|discriminate H].
  inversion H; subst. reflexivity.
Qed.

Lemma ends_open_put (c : ascii) : ends_open (put c).
Proof.
  unfold put. apply ends_open_bind; intros p. apply ends_open_bind; intros _.
  apply ends_open_advance.
Qed.

Lemma ends_open_commonFlush build name value stat_type :
  ends_open (commonFlush build name value stat_type).
Proof.
  unfold commonFlush.
  repeat match goal with
         | |- ends_open (bind _ _) => apply ends_open_bind; intros ?
         end.
  apply ends_open_put.
Qed.

Lemma beginFlush_in_cycle expect_empty_buffer up st a st' evs :
  beginFlush Debug expect_empty_buffer up st = Ok (a, st', evs) ->
  in_cycle st = false /\ in_cycle st' = true.
Proof.
  intros H. unfold in_cycle.
  destruct (negb expect_empty_buffer || (Buffer.length (buffer_ st) =? 0)) eqn:Hb.
  - destruct (current_slice_mem_ st) as [off|] eqn:Hcur.
    + unfold beginFlush in H. rewrite bind_gets in H.
      rewrite (bind_ASSERT Debug) in H by (right; exact Hb).
      rewrite bind_gets, Hcur in H.
      rewrite bind_ASSERT_false in H by reflexivity. discriminate H.
    + rewrite (beginFlush_eq Debug expect_empty_buffer up st Hcur) in H.
      * inversion H; subst. split; reflexivity.
      * right. destruct expect_empty_buffer; [right | left; reflexivity].
        cbn [negb orb] in Hb. apply Z.eqb_eq. exact Hb.
  - unfold beginFlush in H. rewrite bind_gets in H.
    rewrite bind_ASSERT_false in H by exact Hb. discriminate H.
Qed.

Lemma commonFlush_in_cycle name value stat_type up st a st' evs :
  commonFlush Debug name value stat_type up st = Ok (a, st', evs) ->
  in_cycle st = true /\ in_cycle st' = true.
Proof.
  intros H. split; [|exact (ends_open_commonFlush Debug name value stat_type _ _ _ _ _ H)].
  unfold in_cycle. destruct (current_slice_mem_ st) as [off|] eqn:Hcur; [reflexivity|].
  rewrite (commonFlush_idle Debug name value stat_type up st Hcur) in H. discriminate H.
Qed.

Lemma write_state_cursor up st :
  current_slice_mem_ (write_state up st) = current_slice_mem_ st.
Proof.
  unfold write_state. destruct (over_ceiling up); [reflexivity|].
  destruct (connection_ st); reflexivity.
Qed.

Lemma endFlush_in_cycle up st a st' evs :
  endFlush Debug true up st = Ok (a, st', evs) ->
  in_cycle st = true /\ in_cycle st' = false.
Proof.
  intros H. unfold in_cycle.
  destruct (current_slice_mem_ st) as [off|] eqn:Hcur.
  - split; [reflexivity|].
    rewrite (endFlush_eq Debug true off up st Hcur), write_eq in H.
    inversion H; subst. cbn [set_buffer current_slice_mem_].
    rewrite write_state_cursor. reflexivity.
  - rewrite (endFlush_idle Debug true up st Hcur) in H. discriminate H.
Qed.

Lemma run_op_in_cycle RemoteClose LocalClose (op : Op) up st a st' evs :
  run_op Debug RemoteClose LocalClose op up st = Ok (a, st', evs) ->
  step_cycle (in_cycle st) op = Some (in_cycle st').
Proof.
  destruct op as [| name delta | name value | | name value | name ms | events];
    cbn [run_op step_cycle]; intros H.
  - destruct (beginFlush_in_cycle _ _ _ _ _ _ H) as [-> ->]. reflexivity.
  - destruct (commonFlush_in_cycle _ _ _ _ _ _ _ _ H) as [-> ->]. reflexivity.
  - destruct (commonFlush_in_cycle _ _ _ _ _ _ _ _ H) as [-> ->]. reflexivity.
  - destruct (endFlush_in_cycle _ _ _ _ _ H) as [-> ->]. reflexivity.
  - unfold TcpStatsdSink.onHistogramComplete in H.
    rewrite onTimespanComplete_eq in H. inversion H; subst.
    unfold in_cycle. rewrite write_state_cursor. reflexivity.
  - unfold TcpStatsdSink.onTimespanComplete in H.
    rewrite onTimespanComplete_eq in H. inversion H; subst.
    unfold in_cycle. rewrite write_state_cursor. reflexivity.
  - unfold onEvent in H.
    destruct (negb (Z.land events LocalClose =? 0)
              || negb (Z.land events RemoteClose =? 0)).
    + rewrite bind_gets, bind_modify in H. inversion H; subst. reflexivity.
    + inversion H; subst. reflexivity.
Qed.

(** X4. In a debug build the order of the calls is enforced by failure: a
    run of calls on the per-thread sink returns only if it keeps the
    discipline of the cycle, that is [beginFlush] is called with no cycle
    open, [flushCounter], [flushGauge] and [endFlush] with one open, and
    timers, histograms and connection events at any time; and the cycle is
    open at the end of the run as the last [beginFlush] or [endFlush] left
    it. *)
Theorem debug_run_keeps_cycle_discipline :
  forall (RemoteClose LocalClose : Z) (ops : list (Upstream * Op))
         (st st' : TlsSink) (evs : list Event),
    run_ops Debug RemoteClose LocalClose ops st = Ok (st', evs) ->
    disciplined (in_cycle st) (map snd ops) = Some (in_cycle st').
Proof.
  intros RemoteClose LocalClose ops.
  induction ops as [|[up op] rest IH]; intros st st' evs H.
  - cbn in H. inversion H; subst. reflexivity.
  - cbn [run_ops] in H.
    destruct (run_op Debug RemoteClose LocalClose op up st)
      as [[[a st1] evs1]|e] eqn:E1; [|discriminate H].
    destruct (run_ops Debug RemoteClose LocalClose rest st1)
      as [[st2 evs2]|e] eqn:E2; [|discriminate H].
    inversion H; subst.
    cbn [map snd disciplined].
    rewrite (run_op_in_cycle _ _ _ _ _ _ _ _ E1).
    exact (IH st1 st' evs2 E2).
Qed.

(** ** Reading a batch back *)

(** Two texts cut at the first occurrence of a separator are equal piece
    by piece. *)
Lemma cut_at_separator (c : ascii) (a : bytes) : forall (b r1 r2 : bytes),
  ~ In c a -> ~ In c b -> a ++ c :: r1 = b ++ c :: r2 -> a = b /\ r1 = r2.
Proof.
  induction a as [|x a IH]; intros [|y b] r1 r2 Ha Hb H; cbn [app] in H.
  - inversion H. split; reflexivity.
  - inversion H; subst. contradiction Hb. left. reflexivity.
  - inversion H; subst. contradiction Ha. left. reflexivity.
  - inversion H; subst.
    destruct (IH b r1 r2) as [-> ->]; [| |assumption|split; reflexivity].
    + intros Hin. apply Ha. right. exact Hin.
    + intros Hin. apply Hb. right. exact Hin.
Qed.

Lemma is_digit_digit (d : Z) : 0 <= d < 10 -> is_digit (digit d).
Proof.
  intros H. unfold is_digit, digit. rewrite nat_ascii_embedding by lia. lia.
Qed.

Lemma itoa_loop_digits (fuel : nat) : forall (i : Z) (acc : bytes),
  Forall is_digit acc -> Forall is_digit (itoa_loop fuel i acc).
Proof.
  induction fuel as [|fuel IH]; intros i acc Hacc; cbn [itoa_loop];
    assert (Hd : is_digit (digit (i mod 10)))
      by (apply is_digit_digit, Z.mod_pos_bound; lia).
  - constructor; assumption.
  - destruct (0 <? i / 10); [apply IH|]; constructor; assumption.
Qed.

Lemma decimal_digits (i : Z) : Forall is_digit (decimal i).
Proof. apply itoa_loop_digits. constructor. Qed.

Lemma decimal_free (c : ascii) (i : Z) : ~ is_digit c -> ~ In c (decimal i).
Proof.
  intros Hc Hin. apply Hc.
  apply (proj1 (Forall_forall _ _) (decimal_digits i) c Hin).
Qed.

Lemma decimal_inj (i j : Z) :
  0 <= i < 2 ^ 64 -> 0 <= j < 2 ^ 64 -> decimal i = decimal j -> i = j.
Proof.
  intros Hi Hj H. rewrite <- (decimal_value i Hi), <- (decimal_value j Hj), H.
  reflexivity.
Qed.

Lemma sample_line_body (s : Sample) : sample_line s = sample_body s ++ [LF].
Proof.
  unfold sample_line, wire_line, sample_body. repeat rewrite <- app_assoc. reflexivity.
Qed.

Lemma sample_type_cases (s : Sample) :
  sample_type s = "c"%char \/ sample_type s = "g"%char.
Proof. destruct s; [left | right]; reflexivity. Qed.

Lemma sample_body_no_newline (s : Sample) : readable s -> ~ In LF (sample_body s).
Proof.
  intros [Hname _] Hin. unfold sample_body in Hin.
  repeat (apply in_app_or in Hin; destruct Hin as [Hin | Hin]).
  - cbn in Hin. repeat (destruct Hin as [Hin | Hin]; [discriminate Hin|]). exact Hin.
  - exact (Hname Hin).
  - cbn in Hin. destruct Hin as [Hin | []]. discriminate Hin.
  - apply (decimal_free LF (sample_value s)); [|exact Hin].
    unfold is_digit. cbn. lia.
  - cbn in Hin. destruct Hin as [Hin | []]. discriminate Hin.
  - cbn in Hin. destruct Hin as [Hin | []].
    destruct (sample_type_cases s) as [E | E]; rewrite E in Hin; discriminate Hin.
Qed.

Lemma sample_body_inj (s1 s2 : Sample) :
  readable s1 -> readable s2 -> sample_body s1 = sample_body s2 -> s1 = s2.
Proof.
  intros [_ Hv1] [_ Hv2] H. unfold sample_body in H.
  apply app_inv_head in H.
  assert (H' : (sample_name s1 ++ ":"%char :: decimal (sample_value s1))
               ++ ["|"%char; sample_type s1]
             = (sample_name s2 ++ ":"%char :: decimal (sample_value s2))
               ++ ["|"%char; sample_type s2]).
  { repeat rewrite <- app_assoc. exact H. }
  clear H.
  change ["|"%char; sample_type s1] with (["|"%char] ++ [sample_type s1]) in H'.
  change ["|"%char; sample_type s2] with (["|"%char] ++ [sample_type s2]) in H'.
  rewrite !app_assoc in H'.
  apply app_inj_tail in H'. destruct H' as [H' Ht].
  apply app_inj_tail in H'. destruct H' as [H' _].
  apply (f_equal (@rev ascii)) in H'.
  rewrite !rev_app_distr in H'. cbn [rev] in H'. rewrite <- !app_assoc in H'.
  cbn [app] in H'.
  assert (Hcolon : ~ is_digit ":"%char) by (unfold is_digit; cbn; lia).
  apply cut_at_separator in H'.
  - destruct H' as [Hd Hn].
    apply (f_equal (@rev ascii)) in Hd, Hn. rewrite !rev_involutive in Hd, Hn.
    apply (decimal_inj _ _ Hv1 Hv2) in Hd.
    destruct s1 as [n1 v1 | n1 v1], s2 as [n2 v2 | n2 v2];
      cbn [sample_name sample_value sample_type] in *;
      try discriminate Ht; subst; reflexivity.
  - intros Hin. apply in_rev in Hin. exact (decimal_free _ _ Hcolon Hin).
  - intros Hin. apply in_rev in Hin. exact (decimal_free _ _ Hcolon Hin).
Qed.

Lemma wire_cons (s : Sample) (rest : list Sample) :
  wire (s :: rest) = sample_body s ++ LF :: wire rest.
Proof.
  unfold wire. cbn [map List.concat]. rewrite sample_line_body, <- app_assoc.
  reflexivity.
Qed.

Lemma wire_inj (s1 : list Sample) : forall s2,
  Forall readable s1 -> Forall readable s2 -> wire s1 = wire s2 -> s1 = s2.
Proof.
  induction s1 as [|a s1 IH]; intros [|b s2] H1 H2 H.
  - reflexivity.
  - rewrite wire_cons in H. destruct (sample_body b); discriminate H.
  - rewrite wire_cons in H. destruct (sample_body a); discriminate H.
  - inversion H1 as [|? ? Ha H1']; inversion H2 as [|? ? Hb H2']; subst.
    rewrite !wire_cons in H.
    apply cut_at_separator in H;
      [|apply sample_body_no_newline; assumption
       |apply sample_body_no_newline; assumption].
    destruct H as [Hbody Hrest].
    rewrite (sample_body_inj a b Ha Hb Hbody), (IH s2 H1' H2' Hrest). reflexivity.
Qed.

(** X9. A batch can be read back from what the connection is handed: for
    samples whose names hold no newline and fit the slice, two flush cycles
    that hand the same bytes to the connection have flushed the same
    counters and gauges, with the same names, values and kinds, in the same
    order. *)
Theorem handed_bytes_determine_batch :
  forall (build : Build) (s1 s2 : list Sample) (up : Upstream) (st : TlsSink)
         (c : Connection),
    idle st -> Buffer.length (buffer_ st) = 0 -> taker up st = Some c ->
    Forall fits s1 -> Forall fits s2 ->
    Forall readable s1 -> Forall readable s2 ->
    exists st1 evs1 st2 evs2,
      flushCycle build s1 up st = Ok (tt, st1, evs1) /\
      flushCycle build s2 up st = Ok (tt, st2, evs2) /\
      (conn_writes evs1 = conn_writes evs2 -> s1 = s2).
Proof.
  intros build s1 s2 up st c Hidle Hempty Htaker F1 F2 R1 R2.
  destruct (flushCycle_taken build s1 c up st Hidle Hempty F1 Htaker)
    as (st1 & evs1 & E1 & W1 & _).
  destruct (flushCycle_taken build s2 c up st Hidle Hempty F2 Htaker)
    as (st2 & evs2 & E2 & W2 & _).
  exists st1, evs1, st2, evs2. split; [exact E1|]. split; [exact E2|].
  rewrite W1, W2. intros H. inversion H as [Hw].
  apply (wire_inj s1 s2 R1 R2 Hw).
Qed.

Lemma smuggling_line (name1 : bytes) (value1 : Z) (name2 : bytes) (value2 : Z) :
  wire [Counter (smuggling_name name1 value1 name2) value2]
  = wire [Counter name1 value1; Counter name2 value2].
Proof.
  unfold wire, sample_line, wire_line, smuggling_name.
  cbn [map List.concat sample_name sample_value sample_type].
  repeat rewrite <- app_assoc. reflexivity.
Qed.

(** X10. Names are copied as they are, with no escaping: one counter whose
    name is the text of a complete line followed by the start of another is
    handed to the connection as the very bytes of two counters, so a name
    that holds a newline cannot be told from separate metrics. *)
Theorem name_with_newline_is_two_lines :
  forall (build : Build) (name1 name2 : bytes) (value1 value2 : Z)
         (up : Upstream) (st : TlsSink) (c : Connection),
    idle st -> Buffer.length (buffer_ st) = 0 -> taker up st = Some c ->
    size (smuggling_name name1 value1 name2) + 40 <= FlushSliceSizeBytes ->
    exists st1 evs1 st2 evs2,
      flushCycle build [Counter (smuggling_name name1 value1 name2) value2] up st
      = Ok (tt, st1, evs1) /\
      flushCycle build [Counter name1 value1; Counter name2 value2] up st
      = Ok (tt, st2, evs2) /\
      conn_writes evs1 = conn_writes evs2.
Proof.
  intros build name1 name2 value1 value2 up st c Hidle Hempty Htaker Hfits.
  assert (Hsize : size (smuggling_name name1 value1 name2)
                  = size name1 + 1 + size (decimal value1) + 3 + 6 + size name2).
  { unfold smuggling_name. rewrite !size_app.
    change (size (str ":")) with 1. change (size (str "|c")) with 2.
    change (size [LF]) with 1. change (size (str "envoy.")) with 6. lia. }
  pose proof (decimal_size value1). pose proof (size_nonneg name1).
  pose proof (size_nonneg name2).
  destruct (flushCycle_taken build [Counter (smuggling_name name1 value1 name2) value2]
              c up st Hidle Hempty) as (st1 & evs1 & E1 & W1 & _);
    [constructor; [exact Hfits | constructor] | exact Htaker |].
  destruct (flushCycle_taken build [Counter name1 value1; Counter name2 value2]
              c up st Hidle Hempty) as (st2 & evs2 & E2 & W2 & _);
    [repeat constructor; unfold fits; cbn [sample_name]; lia | exact Htaker |].
  exists st1, evs1, st2, evs2. split; [exact E1|]. split; [exact E2|].
  rewrite W1, W2, smuggling_line. reflexivity.
Qed.

(** ** Histogram values *)

Lemma fmt_signed_milliseconds (value : Z) :
  0 <= value < 2 ^ 64 -> fmt_signed (milliseconds value) = histogram_digits value.
Proof.
  intros H. unfold milliseconds, to_int64, wrap64, histogram_digits, fmt_signed.
  rewrite Z.mod_small by exact H.
  destruct (value <? 2 ^ 63) eqn:E.
  - replace (value <? 0) with false by (symmetry; apply Z.ltb_ge; lia). reflexivity.
  - apply Z.ltb_ge in E.
    replace (value - 2 ^ 64 <? 0) with true by (symmetry; apply Z.ltb_lt; lia).
    f_equal. f_equal. lia.
Qed.

(** X11. A histogram value is sent as a duration in signed 64-bit
    milliseconds: on both sinks [onHistogramComplete(name, value)] renders a
    value below 2^63 with the digits a counter of that value gets, and a value
    from 2^63 on as the negative number [value - 2^64], with a minus sign. *)
Theorem histogram_value_is_signed :
  forall (name : bytes) (value : Z),
    0 <= value < 2 ^ 64 ->
    (forall s : UdpStatsdSink.t,
        map dgram_payload (UdpStatsdSink.onHistogramComplete s name value)
        = [str "envoy." ++ name ++ str ":" ++ histogram_digits value ++ str "|ms"]) /\
    (forall (up : Upstream) (st : TlsSink),
        exists st' evs,
          TcpStatsdSink.onHistogramComplete name value up st = Ok (tt, st', evs) /\
          conn_writes evs
          = handed up st (str "envoy." ++ name ++ str ":" ++ histogram_digits value
                          ++ str "|ms" ++ [LF])) /\
    (value < 2 ^ 63 -> histogram_digits value = decimal value) /\
    (2 ^ 63 <= value -> histogram_digits value = "-"%char :: decimal (2 ^ 64 - value)).
Proof.
  intros name value H. split; [|split; [|split]].
  - intros s. unfold UdpStatsdSink.onHistogramComplete,
      UdpStatsdSink.onTimespanComplete, Writer.writeTimer, Writer.send.
    cbn [map dgram_payload]. rewrite (fmt_signed_milliseconds value H). reflexivity.
  - intros up st. unfold TcpStatsdSink.onHistogramComplete.
    rewrite onTimespanComplete_eq, (fmt_signed_milliseconds value H).
    do 2 eexists. split; [reflexivity|]. apply conn_writes_write_events.
  - intros Hlt. unfold histogram_digits.
    replace (value <? 2 ^ 63) with true by (symmetry; apply Z.ltb_lt; exact Hlt).
    reflexivity.
  - intros Hge. unfold histogram_digits.
    replace (value <? 2 ^ 63) with false by (symmetry; apply Z.ltb_ge; exact Hge).
    reflexivity.
Qed.

(** ** The life of the UDP writer *)

Lemma udp_call_fd (w : Writer.t) (c : UdpCall) :
  exists payload,
    map sys_send (udp_call {| UdpStatsdSink.tls_ := w |} c)
    = [SysSend (Writer.fd_ w) payload].
Proof. destruct c; eexists; reflexivity. Qed.

Lemma udp_calls_sends (w : Writer.t) (calls : list UdpCall) :
  List.length (map sys_send (flat_map (udp_call {| UdpStatsdSink.tls_ := w |}) calls))
  = List.length calls /\
  Forall (fun e => exists payload, e = SysSend (Writer.fd_ w) payload)
    (map sys_send (flat_map (udp_call {| UdpStatsdSink.tls_ := w |}) calls)).
Proof.
  induction calls as [|c rest [IHl IHf]]; [split; [reflexivity | constructor]|].
  cbn [flat_map]. rewrite map_app.
  destruct (udp_call_fd w c) as (payload & E). rewrite E. cbn [app List.length].
  split; [rewrite IHl; reflexivity|].
  constructor; [eexists; reflexivity | exact IHf].
Qed.

(** X12. The life of the writer of a thread.  Whenever it runs to its end,
    the writer has made its socket and connected it, sent one datagram per
    call of the sink, all on the descriptor [socket] returned, and closed
    that descriptor once at teardown unless it is -1, which is never closed.
    In a debug build a socket or a connect that fails stops construction, so
    nothing is ever sent; in a release build a socket that fails does not
    stop the thread, which runs to its end with the descriptor -1. *)
Theorem udp_thread_life :
  forall (build : Build) (address : Address) (calls : list UdpCall)
         (close_result : Z) (trace : list Syscall),
    udp_thread build address calls close_result = Ok trace ->
    exists sends,
      trace = [SysSocket; SysConnect (socket address)] ++ sends
              ++ (if socket address =? -1 then [] else [SysClose (socket address)]) /\
      List.length sends = List.length calls /\
      Forall (fun e => exists payload, e = SysSend (socket address) payload) sends /\
      (socket address <> -1 -> close_result = 0) /\
      (build = Debug ->
       socket address <> -1 /\ connect address (socket address) <> -1) /\
      (forall calls',
          socket address = -1 \/ connect address (socket address) = -1 ->
          udp_thread Debug address calls' close_result = Err AssertFailure) /\
      (forall calls',
          socket address = -1 ->
          exists trace', udp_thread Release address calls' close_result = Ok trace').
Proof.
  intros build address calls close_result trace H.
  assert (Hrelease : forall calls',
             socket address = -1 ->
             exists trace', udp_thread Release address calls' close_result = Ok trace').
  { intros calls' Hs. unfold udp_thread, Writer_constructor, Writer_destructor.
    cbn [ASSERT_ Writer.fd_]. rewrite Hs. cbn [Z.eqb negb Pos.eqb].
    eexists. reflexivity. }
  unfold udp_thread, Writer_constructor, Writer_destructor in H.
  cbn [Writer.fd_] in H.
  destruct (udp_calls_sends {| Writer.fd_ := socket address |} calls) as [Hlen Hall].
  cbn [Writer.fd_] in Hall.
  exists (map sys_send
            (flat_map (udp_call {| UdpStatsdSink.tls_ := {| Writer.fd_ := socket address |} |})
               calls)).
  assert (Hdebug : forall calls',
             socket address = -1 \/ connect address (socket address) = -1 ->
             udp_thread Debug address calls' close_result = Err AssertFailure).
  { intros calls' Hfail. unfold udp_thread, Writer_constructor. cbn [ASSERT_].
    destruct (socket address =? -1) eqn:Es; [reflexivity|]. cbn [negb].
    destruct Hfail as [Hf | Hf]; [apply Z.eqb_neq in Es; contradiction|].
    rewrite Hf. reflexivity. }
  destruct (ASSERT_ build (negb (socket address =? -1))) as [[]|e] eqn:A1;
    [|discriminate H].
  destruct (ASSERT_ build (negb (connect address (socket address) =? -1)))
    as [[]|e] eqn:A2; [|discriminate H].
  assert (Hbuild : build = Debug ->
            socket address <> -1 /\ connect address (socket address) <> -1).
  { intros ->. cbn [ASSERT_] in A1, A2.
    destruct (socket address =? -1) eqn:Es; [discriminate A1|].
    destruct (connect address (socket address) =? -1) eqn:Ec; [discriminate A2|].
    split; apply Z.eqb_neq; assumption. }
  cbn [Writer.fd_] in H.
  destruct (socket address =? -1) eqn:Es; cbn [negb] in H.
  - inversion H; subst. split; [reflexivity|]. split; [exact Hlen|].
    split; [exact Hall|]. split; [|split; [|split]; assumption].
    intros Hne. apply Z.eqb_eq in Es. contradiction.
  - unfold RELEASE_ASSERT in H.
    destruct (close_result =? 0) eqn:Ec; [|discriminate H].
    inversion H; subst. split; [reflexivity|]. split; [exact Hlen|].
    split; [exact Hall|]. split; [|split; [|split]; assumption].
    intros _. apply Z.eqb_eq. exact Ec.
Qed.

(** * Further concrete runs *)


(** X2 at the run of the tests. *)
Lemma run_accounts_for_connections_witness :
  exists st' evs,
    run_ops Debug 1 2 test_run TlsSink_init = Ok (st', evs) /\
    held TlsSink_init ++ obtained evs = released evs ++ held st' /\
    (List.length (held st') <= 1)%nat /\
    forall up,
      TlsSink_destructor up st'
      = Ok (tt, st', map (fun c => Close c NoFlush) (held st')).
Proof.
  destruct (run_ops Debug 1 2 test_run TlsSink_init) as [[st' evs]|e] eqn:E.
  - exists st', evs. split; [reflexivity|].
    exact (run_accounts_for_connections Debug 1 2 test_run TlsSink_init st' evs E).
  - vm_compute in E. discriminate E.
Defined.

(** X3 at a run of two cycles and a timer, the first cycle and the timer
    over the ceiling. *)
Lemma run_counts_overflows_witness :
  exists st' evs,
    run_ops Debug 1 2
      (cycle_ops up_over [Counter test_counter 1]
       ++ cycle_ops (up_ok 7%nat) [Gauge test_gauge 2]
       ++ [(up_over, OpTimespanComplete (str "test_timer") 5)]) TlsSink_init
    = Ok (st', evs) /\
    overflows st' = 2%N.
Proof.
  destruct (run_ops Debug 1 2
              (cycle_ops up_over [Counter test_counter 1]
               ++ cycle_ops (up_ok 7%nat) [Gauge test_gauge 2]
               ++ [(up_over, OpTimespanComplete (str "test_timer") 5)]) TlsSink_init)
    as [[st' evs]|e] eqn:E.
  - exists st', evs. split; [reflexivity|].
    exact (run_counts_overflows Debug 1 2 _ TlsSink_init st' evs E).
  - vm_compute in E. discriminate E.
Defined.

(** X4 at the run of the tests, which opens one cycle and closes it. *)
Lemma debug_run_keeps_cycle_discipline_witness :
  exists st' evs,
    run_ops Debug 1 2 test_run TlsSink_init = Ok (st', evs) /\
    disciplined (in_cycle TlsSink_init) (map snd test_run) = Some (in_cycle st').
Proof.
  destruct (run_ops Debug 1 2 test_run TlsSink_init) as [[st' evs]|e] eqn:E.
  - exists st', evs. split; [reflexivity|].
    exact (debug_run_keeps_cycle_discipline 1 2 test_run TlsSink_init st' evs E).
  - vm_compute in E. discriminate E.
Defined.

(** X5 at a sink just made. *)
Lemma empty_cycle_still_attempts_witness :
  idle TlsSink_init /\ Buffer.length (buffer_ TlsSink_init) = 0 /\
  exists st',
    flushCycle Debug [] (up_ok 7%nat) TlsSink_init
    = Ok (tt, st',
          if over_ceiling (up_ok 7%nat) then close_events TlsSink_init
          else match connection_ TlsSink_init with
               | Some c => [ConnWrite c []]
               | None => connect_and_write (up_ok 7%nat) []
               end) /\
    idle st' /\
    Buffer.length (buffer_ st') = 0 /\
    overflows st'
    = (overflows TlsSink_init + (if over_ceiling (up_ok 7%nat) then 1 else 0))%N.
Proof.
  assert (H1 : idle TlsSink_init) by reflexivity.
  assert (H2 : Buffer.length (buffer_ TlsSink_init) = 0) by reflexivity.
  split; [exact H1|]. split; [exact H2|].
  exact (empty_cycle_still_attempts Debug (up_ok 7%nat) TlsSink_init H1 H2).
Defined.


(** X7 at two cycles on a connected sink, the cluster manager offering
    other connections each time. *)
Lemma cycles_reuse_connection_witness :
  connection_ connected_sink = Some 7%nat /\
  idle connected_sink /\
  Buffer.length (buffer_ connected_sink) = 0 /\
  Forall (fun b : Upstream * list Sample =>
            over_ceiling (fst b) = false /\ Forall fits (snd b))
    [(up_ok 8%nat, [Counter test_counter 1]); (up_ok 9%nat, [Gauge test_gauge 2])] /\
  exists st',
    run_ops Debug 1 2
      (cycles_ops [(up_ok 8%nat, [Counter test_counter 1]);
                   (up_ok 9%nat, [Gauge test_gauge 2])]) connected_sink
    = Ok (st',
          map (fun b : Upstream * list Sample => ConnWrite 7%nat (wire (snd b)))
            [(up_ok 8%nat, [Counter test_counter 1]);
             (up_ok 9%nat, [Gauge test_gauge 2])]) /\
    connection_ st' = Some 7%nat /\
    idle st' /\
    Buffer.length (buffer_ st') = 0 /\
    overflows st' = overflows connected_sink /\
    List.concat
      (map (fun b : Upstream * list Sample => wire (snd b))
         [(up_ok 8%nat, [Counter test_counter 1]);
          (up_ok 9%nat, [Gauge test_gauge 2])])
    = wire (List.concat
              (map snd [(up_ok 8%nat, [Counter test_counter 1]);
                        (up_ok 9%nat, [Gauge test_gauge 2])])).
Proof.
  assert (H1 : connection_ connected_sink = Some 7%nat) by reflexivity.
  assert (H2 : idle connected_sink) by reflexivity.
  assert (H3 : Buffer.length (buffer_ connected_sink) = 0) by reflexivity.
  assert (H4 : Forall (fun b : Upstream * list Sample =>
                         over_ceiling (fst b) = false /\ Forall fits (snd b))
                 [(up_ok 8%nat, [Counter test_counter 1]);
                  (up_ok 9%nat, [Gauge test_gauge 2])]).
  { constructor; [split; [reflexivity | exact fits_test_counter]|].
    constructor; [split; [reflexivity | exact fits_test_gauge]|]. constructor. }
  split; [exact H1|]. split; [exact H2|]. split; [exact H3|]. split; [exact H4|].
  exact (cycles_reuse_connection Debug 1 2 _ 7%nat connected_sink H1 H2 H3 H4).
Defined.

(** X8 at a timer between a counter and a gauge. *)
Lemma timer_inside_cycle_witness :
  idle TlsSink_init /\ Buffer.length (buffer_ TlsSink_init) = 0 /\
  Forall fits [Counter test_counter 1] /\ Forall fits [Gauge test_gauge 2] /\
  exists st',
    run_ops Debug 1 2
      (cycle_with_timer_ops (up_ok 7%nat) (up_ok 8%nat)
         [Counter test_counter 1] [Gauge test_gauge 2] (str "test_timer") 5)
      TlsSink_init
    = Ok (st',
          write_events (up_ok 8%nat) TlsSink_init (timer_line (str "test_timer") 5)
          ++ write_events (up_ok 7%nat) (write_state (up_ok 8%nat) TlsSink_init)
               (wire ([Counter test_counter 1] ++ [Gauge test_gauge 2]))) /\
    conn_writes
      (write_events (up_ok 8%nat) TlsSink_init (timer_line (str "test_timer") 5)
       ++ write_events (up_ok 7%nat) (write_state (up_ok 8%nat) TlsSink_init)
            (wire ([Counter test_counter 1] ++ [Gauge test_gauge 2])))
    = handed (up_ok 8%nat) TlsSink_init (timer_line (str "test_timer") 5)
      ++ handed (up_ok 7%nat) (write_state (up_ok 8%nat) TlsSink_init)
           (wire ([Counter test_counter 1] ++ [Gauge test_gauge 2])).
Proof.
  assert (H1 : idle TlsSink_init) by reflexivity.
  assert (H2 : Buffer.length (buffer_ TlsSink_init) = 0) by reflexivity.
  split; [exact H1|]. split; [exact H2|].
  split; [exact fits_test_counter|]. split; [exact fits_test_gauge|].
  exact (timer_inside_cycle Debug 1 2 [Counter test_counter 1] [Gauge test_gauge 2]
           (str "test_timer") 5 (up_ok 7%nat) (up_ok 8%nat) TlsSink_init
           H1 H2 fits_test_counter fits_test_gauge).
Defined.

Lemma readable_test_counter : Forall readable [Counter test_counter 1].
Proof.
  constructor; [|constructor]. split; [|vm_compute; split; [discriminate | reflexivity]].
  cbn. intros H. repeat (destruct H as [H|H]; [discriminate H|]). exact H.
Qed.

Lemma readable_test_gauge : Forall readable [Gauge test_gauge 2].
Proof.
  constructor; [|constructor]. split; [|vm_compute; split; [discriminate | reflexivity]].
  cbn. intros H. repeat (destruct H as [H|H]; [discriminate H|]). exact H.
Qed.

(** X9 at a batch of one counter and a batch of one gauge. *)
Lemma handed_bytes_determine_batch_witness :
  idle TlsSink_init /\ Buffer.length (buffer_ TlsSink_init) = 0 /\
  taker (up_ok 7%nat) TlsSink_init = Some 7%nat /\
  Forall fits [Counter test_counter 1] /\ Forall fits [Gauge test_gauge 2] /\
  Forall readable [Counter test_counter 1] /\ Forall readable [Gauge test_gauge 2] /\
  exists st1 evs1 st2 evs2,
    flushCycle Debug [Counter test_counter 1] (up_ok 7%nat) TlsSink_init
    = Ok (tt, st1, evs1) /\
    flushCycle Debug [Gauge test_gauge 2] (up_ok 7%nat) TlsSink_init
    = Ok (tt, st2, evs2) /\
    (conn_writes evs1 = conn_writes evs2 ->
     [Counter test_counter 1] = [Gauge test_gauge 2]).
Proof.
  assert (H1 : idle TlsSink_init) by reflexivity.
  assert (H2 : Buffer.length (buffer_ TlsSink_init) = 0) by reflexivity.
  assert (H3 : taker (up_ok 7%nat) TlsSink_init = Some 7%nat) by reflexivity.
  split; [exact H1|]. split; [exact H2|]. split; [exact H3|].
  split; [exact fits_test_counter|]. split; [exact fits_test_gauge|].
  split; [exact readable_test_counter|]. split; [exact readable_test_gauge|].
  exact (handed_bytes_determine_batch Debug [Counter test_counter 1]
           [Gauge test_gauge 2] (up_ok 7%nat) TlsSink_init 7%nat H1 H2 H3
           fits_test_counter fits_test_gauge
           readable_test_counter readable_test_gauge).
Defined.

(** X10 at the names [a] and [b]: the counter named
    [a:1|c<LF>envoy.b] with the value 2 is sent as the counters [a] = 1 and
    [b] = 2 are. *)
Lemma name_with_newline_is_two_lines_witness :
  idle TlsSink_init /\ Buffer.length (buffer_ TlsSink_init) = 0 /\
  taker (up_ok 7%nat) TlsSink_init = Some 7%nat /\
  size (smuggling_name (str "a") 1 (str "b")) + 40 <= FlushSliceSizeBytes /\
  exists st1 evs1 st2 evs2,
    flushCycle Debug [Counter (smuggling_name (str "a") 1 (str "b")) 2]
      (up_ok 7%nat) TlsSink_init
    = Ok (tt, st1, evs1) /\
    flushCycle Debug [Counter (str "a") 1; Counter (str "b") 2]
      (up_ok 7%nat) TlsSink_init
    = Ok (tt, st2, evs2) /\
    conn_writes evs1 = conn_writes evs2.
Proof.
  assert (H1 : idle TlsSink_init) by reflexivity.
  assert (H2 : Buffer.length (buffer_ TlsSink_init) = 0) by reflexivity.
  assert (H3 : taker (up_ok 7%nat) TlsSink_init = Some 7%nat) by reflexivity.
  assert (H4 : size (smuggling_name (str "a") 1 (str "b")) + 40
               <= FlushSliceSizeBytes) by (vm_compute; discriminate).
  split; [exact H1|]. split; [exact H2|]. split; [exact H3|]. split; [exact H4|].
  exact (name_with_newline_is_two_lines Debug (str "a") (str "b") 1 2
           (up_ok 7%nat) TlsSink_init 7%nat H1 H2 H3 H4).
Defined.

(** X11 at the value 2^63, the first that is sent as a negative number. *)
Lemma histogram_value_is_signed_witness :
  0 <= 2 ^ 63 < 2 ^ 64 /\
  (forall s : UdpStatsdSink.t,
      map dgram_payload
        (UdpStatsdSink.onHistogramComplete s (str "histogram_test_timer") (2 ^ 63))
      = [str "envoy." ++ str "histogram_test_timer" ++ str ":"
         ++ histogram_digits (2 ^ 63) ++ str "|ms"]) /\
  (forall (up : Upstream) (st : TlsSink),
      exists st' evs,
        TcpStatsdSink.onHistogramComplete (str "histogram_test_timer") (2 ^ 63) up st
        = Ok (tt, st', evs) /\
        conn_writes evs
        = handed up st (str "envoy." ++ str "histogram_test_timer" ++ str ":"
                        ++ histogram_digits (2 ^ 63) ++ str "|ms" ++ [LF])) /\
  (2 ^ 63 < 2 ^ 63 -> histogram_digits (2 ^ 63) = decimal (2 ^ 63)) /\
  (2 ^ 63 <= 2 ^ 63 ->
   histogram_digits (2 ^ 63) = "-"%char :: decimal (2 ^ 64 - 2 ^ 63)).
Proof.
  assert (H : 0 <= 2 ^ 63 < 2 ^ 64) by (vm_compute; split; [discriminate | reflexivity]).
  split; [exact H|].
  exact (histogram_value_is_signed (str "histogram_test_timer") (2 ^ 63) H).
Defined.

(** X12 at a thread that flushes a counter and a gauge and completes a
    timer on the descriptor 5. *)
Lemma udp_thread_life_witness :
  exists trace,
    udp_thread Debug address_ok
      [UdpFlushCounter test_counter 1; UdpFlushGauge test_gauge 2;
       UdpTimespanComplete (str "test_timer") 5] 0
    = Ok trace /\
    exists sends,
      trace = [SysSocket; SysConnect (socket address_ok)] ++ sends
              ++ (if socket address_ok =? -1 then []
                  else [SysClose (socket address_ok)]) /\
      List.length sends = 3%nat /\
      Forall (fun e => exists payload, e = SysSend (socket address_ok) payload) sends.
Proof.
  destruct (udp_thread Debug address_ok
              [UdpFlushCounter test_counter 1; UdpFlushGauge test_gauge 2;
               UdpTimespanComplete (str "test_timer") 5] 0) as [trace|e] eqn:E.
  - exists trace. split; [reflexivity|].
    destruct (udp_thread_life Debug address_ok _ 0 trace E)
      as (sends & Ht & Hl & Hs & _).
    exists sends. split; [exact Ht|]. split; [exact Hl | exact Hs].
  - vm_compute in E. discriminate E.
Defined.

(** In a release build a socket that cannot be made is used all the same:
    the datagram goes to the descriptor -1, and nothing is closed. *)
Example udp_thread_release_failed_socket :
  udp_thread Release address_failed [UdpFlushCounter test_counter 1] 0
  = Ok [SysSocket; SysConnect (-1); SysSend (-1) (str "envoy.test_counter:1|c")] /\
  udp_thread Debug address_failed [UdpFlushCounter test_counter 1] 0
  = Err AssertFailure.
Proof. split; vm_compute; reflexivity. Qed.
